(** * resource_monitor.py: bar graphs on a curses window

    A shallow embedding of [src/resource_monitor.py] (class [BarGraph],
    [basic_init], [basic_update], [advanced_init], [advanced_update]) and
    the properties of its rendering and layout arithmetic.

    Modelling choices.
    - A Python [str] is the list of its Unicode code points ([pystr]), so
      that [len] counts characters as Python does.
    - The curses window [stdscr] is one shared object; every graph holds a
      reference to the same window.  It is therefore threaded through all
      operations as the state of a small state-and-exception monad [M].
      The window keeps its character cells, the cursor and what was last
      flushed to the terminal by [refresh].  The window is assumed large
      enough for the text written to it: nothing wraps and [addstr] does
      not raise [curses.error].
    - Numbers passed to a graph (Python [int] or finite [float]) are given
      by their exact rational value; [assert 0 <= value <= 100] and
      [round] are exact on both kinds, the latter rounding halves to even.
    - True division [/] and float multiplication are binary64 operations,
      taken from the Standard Library's [SpecFloat].  An [int] operand is
      converted to binary64 first, which is exact below 2^53; the theorem
      on the memory percentage is stated for totals below 2^44.
    - The samples psutil returns (aggregate and per-core CPU percent,
      memory totals, core count) are inputs of the functions that read
      them.  The driver [main], an endless polling loop left through
      [KeyboardInterrupt], is not modelled. *)

From Stdlib Require Import ZArith QArith Qround Qpower List Lia Lqa
  DecimalString SpecFloat.
From stdpp Require Import gmap list strings.

Local Open Scope Z_scope.

(** ** Python strings *)

Module Py.

(** A character is its code point; a string is a list of characters. *)
Abbreviation char := N (only parsing).
Abbreviation pystr := (list N) (only parsing).

(** An ASCII literal as a Python string. *)
Definition lit (s : string) : pystr :=
  map Ascii.N_of_ascii (String.list_ascii_of_string s).

(** [len(s)] *)
Definition len (s : pystr) : Z := Z.of_nat (length s).

(** [c * n] for a one-character string [c]; empty when [n <= 0]. *)
Definition times (c : char) (n : Z) : pystr := replicate (Z.to_nat n) c.

(** [str(n)] for an [int]. *)
Definition str (n : Z) : pystr := lit (NilZero.string_of_int (Z.to_int n)).

(** [f"{n:<w}"]: [str(n)] left-justified in a field of [w] characters,
    padded with spaces on the right; never truncated. *)
Definition ljust (s : pystr) (w : Z) : pystr := s ++ times 32%N (w - len s).

(** ** Numbers *)

(** [round(x)] with one argument: the nearest integer, halves to even. *)
Definition round (x : Q) : Z :=
  let n := Qnum x in
  let d := Zpos (Qden x) in
  let q := n / d in
  let r := n mod d in
  match 2 * r ?= d with
  | Lt => q
  | Gt => q + 1
  | Eq => if Z.even q then q else q + 1
  end.

Definition prec : Z := 53.
Definition emax : Z := 1024.

(** [float(n)] *)
Definition float_of_int (n : Z) : spec_float :=
  binary_normalize prec emax n 0 false.

(** [a / b] on two [int]s with [b != 0] (the caller raises
    [ZeroDivisionError] otherwise).  CPython rounds the exact quotient
    once; for operands below 2^53, as all operands here are, that is the
    binary64 quotient of the converted operands. *)
Definition truediv (a b : Z) : spec_float :=
  SFdiv prec emax (float_of_int a) (float_of_int b).

(** [x * n] for a [float] and an [int]. *)
Definition fmul_int (x : spec_float) (n : Z) : spec_float :=
  SFmul prec emax x (float_of_int n).

(** The exact value of a finite float. *)
Definition float_value (x : spec_float) : option Q :=
  match x with
  | S754_zero _ => Some 0%Q
  | S754_finite s m e =>
      let m' := if s then Zneg m else Zpos m in
      Some (if 0 <=? e then inject_Z (m' * 2 ^ e)
            else Qmake m' (Z.to_pos (2 ^ (- e))))
  | _ => None
  end.

(** [int(x)] for a [float]: truncation toward zero. *)
Definition int_of_float (x : spec_float) : option Z :=
  match float_value x with
  | Some q => Some (Z.quot (Qnum q) (Zpos (Qden q)))
  | None => None
  end.

(** [round(x)] for a [float]. *)
Definition round_float (x : spec_float) : option Z :=
  round <$> float_value x.

End Py.

(** ** The curses window *)

Module Curses.

Import Py.

(** A cell position is (row, column), as curses orders coordinates. *)
Record window := Window {
  cells : gmap (Z * Z) char;     (* the window's character cells *)
  cursor : Z * Z;                (* where the next character would go *)
  screen : gmap (Z * Z) char     (* what the last refresh put on the terminal *)
}.

Inductive exn :=
| AssertionError (msg : string)
| ZeroDivisionError
| ValueError.

Inductive outcome (A : Type) :=
| Returned (a : A) (w : window)
| Raised (e : exn) (w : window).
Arguments Returned {A} a w.
Arguments Raised {A} e w.

(** Computations on the shared window that may raise. *)
Definition M (A : Type) : Type := window → outcome A.

#[export] Instance M_ret : MRet M := λ A a w, Returned a w.
#[export] Instance M_bind : MBind M := λ A B f m w,
  match m w with
  | Returned a w' => f a w'
  | Raised e w' => Raised e w'
  end.

Definition raise {A} (e : exn) : M A := λ w, Raised e w.

(** [assert cond, msg] *)
Definition assert_ (cond : bool) (msg : string) : M unit :=
  if cond then mret () else raise (AssertionError msg).

(** Writing a string's characters left to right from column [x]. *)
Fixpoint put_chars (y x : Z) (s : pystr) (m : gmap (Z * Z) char)
  : gmap (Z * Z) char :=
  match s with
  | [] => m
  | c :: s' => put_chars y (x + 1) s' (<[(y, x) := c]> m)
  end.

(** [win.addstr(y, x, s)]: paint [s] at row [y] from column [x]; the
    cursor is left after the last character. *)
Definition addstr (y x : Z) (s : pystr) : M unit := λ w,
  Returned () (Window (put_chars y x s (cells w)) (y, x + len s) (screen w)).

(** [win.addch(y, x, c)] *)
Definition addch (y x : Z) (c : char) : M unit := addstr y x [c].

(** [win.hline(y, x, c, n)] and [win.vline(y, x, c, n)]: a line of at most
    [n] characters to the right (downwards); the cursor does not move. *)
Definition hline (y x : Z) (c : char) (n : Z) : M unit := λ w,
  Returned () (Window (put_chars y x (times c n) (cells w)) (cursor w) (screen w)).

Fixpoint put_column (y x : Z) (c : char) (n : nat) (m : gmap (Z * Z) char)
  : gmap (Z * Z) char :=
  match n with
  | O => m
  | S n' => put_column (y + 1) x c n' (<[(y, x) := c]> m)
  end.

Definition vline (y x : Z) (c : char) (n : Z) : M unit := λ w,
  Returned () (Window (put_column y x c (Z.to_nat n) (cells w)) (cursor w) (screen w)).

(** [win.refresh()]: the terminal shows the window's cells. *)
Definition refresh : M unit := λ w,
  Returned () (Window (cells w) (cursor w) (cells w)).

(** Line-drawing characters (the terminal's ACS set, here as the Unicode
    box-drawing code points). *)
Definition ACS_VLINE : char := 9474%N.
Definition ACS_HLINE : char := 9472%N.
Definition ACS_ULCORNER : char := 9484%N.
Definition ACS_URCORNER : char := 9488%N.
Definition ACS_LRCORNER : char := 9496%N.
Definition ACS_LLCORNER : char := 9492%N.

(** [curses.textpad.rectangle(win, uly, ulx, lry, lrx)], as the Python
    library defines it. *)
Definition rectangle (uly ulx lry lrx : Z) : M unit :=
  vline (uly + 1) ulx ACS_VLINE (lry - uly - 1) ;;
  hline uly (ulx + 1) ACS_HLINE (lrx - ulx - 1) ;;
  hline lry (ulx + 1) ACS_HLINE (lrx - ulx - 1) ;;
  vline (uly + 1) lrx ACS_VLINE (lry - uly - 1) ;;
  addch uly ulx ACS_ULCORNER ;;
  addch uly lrx ACS_URCORNER ;;
  addch lry lrx ACS_LRCORNER ;;
  addch lry ulx ACS_LLCORNER.

(** Reading [n] cells of row [y] from column [x]. *)
Definition read_row (m : gmap (Z * Z) char) (y x : Z) (n : nat)
  : list (option char) :=
  (λ i, m !! (y, x + Z.of_nat i)) <$> seq 0 n.

(** What is on the terminal: a row of the flushed cells. *)
Definition shown (w : window) (y x : Z) (n : nat) : list (option char) :=
  read_row (screen w) y x n.

End Curses.

(** ** The program *)

Import Py Curses.

(** The glyphs of a graph. *)
Definition POINTER : char := 9484%N.   (* "┌" *)
Definition FILLED : char := 9608%N.    (* "█" *)
Definition EMPTY : char := 9617%N.     (* "░" *)
Definition SPACE : char := 32%N.
Definition PERCENT : char := 37%N.

(** An instance of [class BarGraph]; its [stdscr] attribute is the shared
    window. *)
Record BarGraph := mkBarGraph {
  pointer_y : Z;
  pointer_x : Z;
  bar_y : Z;
  bar_x : Z
}.

#[export] Instance BarGraph_eq_dec : EqDecision BarGraph.
Proof. solve_decision. Defined.

(** [BarGraph.__init__(self, stdscr, pos_y, pos_x, label)] *)
Definition BarGraph_init (pos_y pos_x : Z) (label : pystr) : M BarGraph :=
  let self := mkBarGraph pos_y (pos_x + len label + 1)
                         (pos_y + 1) (pos_x + len label + 2) in
  addstr (pointer_y self) (pointer_x self) (POINTER :: lit "0%") ;;
  addstr (bar_y self) pos_x (label ++ lit " |" ++ times EMPTY 19 ++ lit "|") ;;
  addstr (bar_y self + 1) (bar_x self - 1) (lit "0") ;;
  addstr (bar_y self + 1) (bar_x self + 18) (lit "100") ;;
  refresh ;;
  mret self.

(** [0 <= value <= 100] *)
Definition in_range (value : Q) : bool :=
  Qle_bool 0 value && Qle_bool value 100.

(** [blocks = int(value / 5)] for the rounded, integer [value]; the
    quotient of a float by 5 is never infinite or NaN, so the fallback is
    not reached. *)
Definition blocks_of (value : Z) : Z :=
  default 0 (int_of_float (truediv value 5)).

(** [f"┌{value}%"] *)
Definition pointer_text (value : Z) : pystr :=
  POINTER :: str value ++ [PERCENT].

(** [BarGraph.__call__(self, value)] *)
Definition call (self : BarGraph) (value : Q) : M unit :=
  assert_ (in_range value) "Given value not in range <0;100>" ;;
  let value := round value in
  let blocks := blocks_of value in
  addstr (pointer_y self) (pointer_x self) (times SPACE 25) ;;
  addstr (pointer_y self) (pointer_x self + blocks) (pointer_text value) ;;
  (if decide (value ≠ 100)
   then addstr (bar_y self) (bar_x self)
               (times FILLED blocks ++ times EMPTY (19 - blocks))
   else addstr (bar_y self) (bar_x self) (times FILLED (blocks - 1))) ;;
  refresh.

(** [basic_init(stdscr)] *)
Definition basic_init : M (BarGraph * BarGraph) :=
  rectangle 0 0 4 63 ;;
  addstr 0 2 (lit " Basic ") ;;
  cpu_graph ← BarGraph_init 1 3 (lit "CPU") ;
  ram_graph ← BarGraph_init 1 34 (lit "RAM") ;
  mret (cpu_graph, ram_graph).

(** The fields of [psutil.virtual_memory()] the program reads. *)
Record svmem := mk_svmem { total : Z; available : Z }.

(** [round((mem_stats.total-mem_stats.available) / mem_stats.total * 100)]
    for a nonzero total; [None] stands for the exception [round] raises on
    an infinity or a NaN. *)
Definition ram_usage_of (mem_stats : svmem) : option Z :=
  round_float
    (fmul_int (truediv (total mem_stats - available mem_stats)
                       (total mem_stats)) 100).

(** [basic_update(cpu_graph, ram_graph)].  The two samples taken from
    psutil, [cpu_percent(interval=1)] and [virtual_memory()], are inputs. *)
Definition basic_update (cpu_graph ram_graph : BarGraph)
    (cpu_usage : Q) (mem_stats : svmem) : M unit :=
  call cpu_graph cpu_usage ;;
  (if decide (total mem_stats = 0) then raise ZeroDivisionError else mret ()) ;;
  match ram_usage_of mem_stats with
  | Some ram_usage => call ram_graph (inject_Z ram_usage)
  | None => raise ValueError
  end.

(** [f"CPU{cpu_id:<2}"] *)
Definition cpu_label (cpu_id : Z) : pystr := lit "CPU" ++ ljust (str cpu_id) 2.

(** [range(n)] *)
Definition range (n : Z) : list Z := Z.of_nat <$> seq 0 (Z.to_nat n).

(** One iteration of the loop of [advanced_init]; the loop variables are
    [cpu_id] and the list [cpu_graphs]. *)
Definition advanced_init_row (row : Z) (st : Z * list BarGraph)
    : M (Z * list BarGraph) :=
  let '(cpu_id, cpu_graphs) := st in
  let row_y := 3 * row in
  left_graph ← BarGraph_init (row_y + 6) 1 (cpu_label cpu_id) ;
  let cpu_graphs := cpu_graphs ++ [left_graph] in
  let cpu_id := cpu_id + 1 in
  right_graph ← BarGraph_init (row_y + 6) 32 (cpu_label cpu_id) ;
  let cpu_graphs := cpu_graphs ++ [right_graph] in
  let cpu_id := cpu_id + 1 in
  mret (cpu_id, cpu_graphs).

(** [for x in xs: st = body(x, st)] *)
Fixpoint for_each {A S : Type} (xs : list A) (body : A → S → M S) (st : S)
  : M S :=
  match xs with
  | [] => mret st
  | x :: xs' => st' ← body x st ; for_each xs' body st'
  end.

(** [advanced_init(stdscr)]; [cpu_count] is what [psutil.cpu_count()]
    returns.  [int(cpu_count / 2)] goes through a float, as in the source. *)
Definition advanced_init (cpu_count : Z) : M (list BarGraph) :=
  let rows := default 0 (int_of_float (truediv cpu_count 2)) in
  rectangle 5 0 (6 + 3 * rows) 63 ;;
  addstr 5 2 (lit " Advanced ") ;;
  st ← for_each (range rows) advanced_init_row (1, []) ;
  mret (snd st).

(** [advanced_update(cpu_graphs)]; [usage_per_cpu] is what
    [psutil.cpu_percent(interval=1, percpu=True)] returns. *)
Definition advanced_update (cpu_graphs : list BarGraph)
    (usage_per_cpu : list Q) : M unit :=
  assert_ (bool_decide (length cpu_graphs = length usage_per_cpu))
          "Quantity of graphs do not match quantity of CPUs" ;;
  for_each (zip cpu_graphs usage_per_cpu)
           (λ '(graph, cpu_usage) _, call graph cpu_usage) ().

(** ** What a graph displays

    The descriptions below are the ones the properties are stated with;
    they are compared with what [call] paints. *)

(** A graph as [__init__] lays it out: the bar is one row below the
    pointer and starts one column to the right of the pointer's anchor. *)
Definition wf (g : BarGraph) : Prop :=
  bar_y g = pointer_y g + 1 ∧ bar_x g = pointer_x g + 1.

(** The attributes [__init__] gives to a graph. *)
Definition new_graph (pos_y pos_x : Z) (label : pystr) : BarGraph :=
  mkBarGraph pos_y (pos_x + len label + 1) (pos_y + 1) (pos_x + len label + 2).

(** The number of filled blocks for an integer percentage. *)
Definition blocks (v : Z) : Z := v / 5.

(** The 19 cells of the bar for an integer percentage. *)
Definition bar_row (v : Z) : pystr :=
  replicate (Z.to_nat (Z.min (blocks v) 19)) FILLED
  ++ replicate (Z.to_nat (19 - blocks v)) EMPTY.

(** The 25 cells of the pointer row: the pointer text after [off] blanks. *)
Definition pointer_row (off v : Z) : pystr :=
  replicate (Z.to_nat off) SPACE ++ pointer_text v
  ++ replicate (25 - Z.to_nat off - length (pointer_text v))%nat SPACE.

(** The string [call] paints on the bar row. *)
Definition bar_text (value blocks : Z) : pystr :=
  if decide (value ≠ 100)
  then times FILLED blocks ++ times EMPTY (19 - blocks)
  else times FILLED (blocks - 1).

(** The cells after [call] has painted the integer percentage [value]. *)
Definition painted (g : BarGraph) (value : Z) (m : gmap (Z * Z) char)
  : gmap (Z * Z) char :=
  let b := blocks_of value in
  put_chars (bar_y g) (bar_x g) (bar_text value b)
    (put_chars (pointer_y g) (pointer_x g + b) (pointer_text value)
       (put_chars (pointer_y g) (pointer_x g) (times SPACE 25) m)).

(** Successive calls on one graph. *)
Definition calls (g : BarGraph) (values : list Q) : M unit :=
  for_each values (λ v _, call g v) ().

(** The window an outcome leaves behind. *)
Definition window_of {A} (o : outcome A) : window :=
  match o with Returned _ w => w | Raised _ w => w end.

(** The values a bounded check ranges over. *)
Definition upto (n : nat) : list Z := Z.of_nat <$> seq 0 n.

(** What the code computes for each integer percentage, checked against
    the descriptions above. *)
Definition value_ok (v : Z) : bool :=
  bool_decide (blocks_of v = blocks v)
  && bool_decide (blocks v + len (pointer_text v) ≤ 25)
  && bool_decide (bar_text v (blocks_of v) = bar_row v)
  && bool_decide (length (bar_row v) = 19%nat)
  && bool_decide (length (pointer_row (blocks v) v) = 25%nat).

(** The cells after [__init__] has drawn the static frame of a graph. *)
Definition init_cells (pos_y pos_x : Z) (label : pystr)
    (m : gmap (Z * Z) char) : gmap (Z * Z) char :=
  let g := new_graph pos_y pos_x label in
  put_chars (bar_y g + 1) (bar_x g + 18) (lit "100")
    (put_chars (bar_y g + 1) (bar_x g - 1) (lit "0")
       (put_chars (bar_y g) pos_x
          (label ++ lit " |" ++ times EMPTY 19 ++ lit "|")
          (put_chars (pointer_y g) (pointer_x g) (POINTER :: lit "0%") m))).

(** The static frame of the graph created at [(pos_y, pos_x)] with
    [label]: label, separator and opening bracket, closing bracket, and
    the scale under the bar. *)
Definition static_frame (pos_y pos_x : Z) (label : pystr)
    (m : gmap (Z * Z) char) : Prop :=
  let g := new_graph pos_y pos_x label in
  read_row m (bar_y g) pos_x (length (label ++ lit " |"))
    = Some <$> (label ++ lit " |")
  ∧ m !! (bar_y g, bar_x g + 19) = Some 124%N
  ∧ m !! (bar_y g + 1, bar_x g - 1) = Some 48%N
  ∧ read_row m (bar_y g + 1) (bar_x g + 18) 3 = Some <$> lit "100".

(** The graphs [advanced_init] creates for the rows [rows], the first
    label carrying [cpu_id]. *)
Fixpoint layout_rows (rows : list Z) (cpu_id : Z) : list BarGraph :=
  match rows with
  | [] => []
  | row :: rest =>
      new_graph (3 * row + 6) 1 (cpu_label cpu_id)
      :: new_graph (3 * row + 6) 32 (cpu_label (cpu_id + 1))
      :: layout_rows rest (cpu_id + 2)
  end.

(** [int(cpu_count / 2)] *)
Definition rows_of (cpu_count : Z) : Z :=
  default 0 (int_of_float (truediv cpu_count 2)).

Definition layout (cpu_count : Z) : list BarGraph :=
  layout_rows (range (rows_of cpu_count)) 1.

(** The graph at position [i] of a row-major layout of pairs: row [i / 2],
    left for even [i] and right for odd [i], labelled with core [i + 1]. *)
Definition graph_at (i : Z) : BarGraph :=
  new_graph (3 * (i / 2) + 6) (if Z.even i then 1 else 32) (cpu_label (i + 1)).

(** Pushing [n] values by position, from position [i] on. *)
Fixpoint push_from (gs : list BarGraph) (us : list Q) (i n : nat) : M unit :=
  match n with
  | O => mret ()
  | S n' =>
      match gs !! i, us !! i with
      | Some g, Some u => call g u ;; push_from gs us (S i) n'
      | _, _ => mret ()
      end
  end.

(** The bounded checks on labels and layouts. *)
Definition label_ok (cpu_id : Z) : bool :=
  bool_decide (cpu_id = 0 ∨ length (cpu_label cpu_id) = 5%nat).

Definition layout_ok (cpu_count : Z) : bool :=
  bool_decide (rows_of cpu_count = cpu_count / 2
               ∧ layout cpu_count
                 = graph_at <$> upto (2 * Z.to_nat (cpu_count / 2))).

(** The binary64 computation returns a nearest integer to the exact
    percentage of used memory; checked here for every snapshot with a
    total of at most 48 units.  On a tie either neighbour may come out:
    115 used of 200 is 57.5 percent exactly and gives 57. *)
Definition nearest_percent (mem_stats : svmem) : bool :=
  match ram_usage_of mem_stats with
  | Some p =>
      let used := total mem_stats - available mem_stats in
      bool_decide (2 * Z.abs (p * total mem_stats - 100 * used)
                   ≤ total mem_stats)
      && bool_decide (0 ≤ p ≤ 100)
  | None => false
  end.

(** ** Regions of the window *)

(** The cells an update of a graph may paint: 25 cells of the pointer
    row from the pointer anchor and the 19 cells of the bar. *)
Definition region (g : BarGraph) (k : Z * Z) : Prop :=
  (k.1 = pointer_y g ∧ pointer_x g ≤ k.2 < pointer_x g + 25)
  ∨ (k.1 = bar_y g ∧ bar_x g ≤ k.2 < bar_x g + 19).

(** Two graphs no cell of which an update of both may paint. *)
Definition disjoint (g1 g2 : BarGraph) : Prop :=
  ∀ k, ¬ (region g1 k ∧ region g2 k).

(** The rectangle the docstring of [__init__] gives a graph: height 3 and
    width 26 plus the length of the label, from [(pos_y, pos_x)]. *)
Definition box (pos_y pos_x : Z) (label : pystr) (k : Z * Z) : Prop :=
  pos_y ≤ k.1 < pos_y + 3 ∧ pos_x ≤ k.2 < pos_x + (26 + len label).

(** A graph displays the integer percentage [z] on the cells [m]. *)
Definition displays (g : BarGraph) (z : Z) (m : gmap (Z * Z) char) : Prop :=
  read_row m (pointer_y g) (pointer_x g) 25
    = Some <$> pointer_row (blocks z) z
  ∧ read_row m (bar_y g) (bar_x g) 19 = Some <$> bar_row z.

(** A freshly constructed graph: the pointer text of 0 at the anchor and
    an empty bar. *)
Definition shows_zero (g : BarGraph) (m : gmap (Z * Z) char) : Prop :=
  read_row m (pointer_y g) (pointer_x g) 3 = Some <$> pointer_text 0
  ∧ read_row m (bar_y g) (bar_x g) 19 = Some <$> bar_row 0.

(** No two graphs of a collection share a cell of their regions. *)
Definition pairwise_disjoint (gs : list BarGraph) : Prop :=
  ∀ (i j : nat) gi gj,
    i ≠ j → gs !! i = Some gi → gs !! j = Some gj → disjoint gi gj.

(** The cells after [rectangle] has drawn its frame. *)
Definition rectangle_cells (uly ulx lry lrx : Z) (m : gmap (Z * Z) char)
  : gmap (Z * Z) char :=
  put_chars lry ulx [ACS_LLCORNER]
    (put_chars lry lrx [ACS_LRCORNER]
       (put_chars uly lrx [ACS_URCORNER]
          (put_chars uly ulx [ACS_ULCORNER]
             (put_column (uly + 1) lrx ACS_VLINE (Z.to_nat (lry - uly - 1))
                (put_chars lry (ulx + 1) (times ACS_HLINE (lrx - ulx - 1))
                   (put_chars uly (ulx + 1) (times ACS_HLINE (lrx - ulx - 1))
                      (put_column (uly + 1) ulx ACS_VLINE
                         (Z.to_nat (lry - uly - 1)) m))))))).

(** A frame with corners [(uly, ulx)] and [(lry, lrx)] is on the cells,
    but for the columns from [t] to [t'] of its top row, where a title
    may stand. *)
Definition framed (uly ulx lry lrx t t' : Z) (m : gmap (Z * Z) char) : Prop :=
  m !! (uly, ulx) = Some ACS_ULCORNER
  ∧ m !! (uly, lrx) = Some ACS_URCORNER
  ∧ m !! (lry, lrx) = Some ACS_LRCORNER
  ∧ m !! (lry, ulx) = Some ACS_LLCORNER
  ∧ (∀ r, uly < r < lry →
          m !! (r, ulx) = Some ACS_VLINE ∧ m !! (r, lrx) = Some ACS_VLINE)
  ∧ (∀ c, ulx < c < lrx →
          m !! (lry, c) = Some ACS_HLINE
          ∧ (¬ (t ≤ c ≤ t') → m !! (uly, c) = Some ACS_HLINE)).


(** Samples [basic_update] accepts: an aggregate percentage in range and
    a memory snapshot with a nonzero total whose used share rounds to
    [ram_usage], itself in range. *)
Definition basic_samples_ok (cpu_usage : Q) (mem_stats : svmem)
    (ram_usage : Z) : Prop :=
  in_range cpu_usage = true
  ∧ total mem_stats ≠ 0
  ∧ ram_usage_of mem_stats = Some ram_usage
  ∧ 0 ≤ ram_usage ≤ 100.


(** ** The driver *)

(** What psutil returns during one iteration of the loop of [main]. *)
Record tick := mk_tick {
  cpu_percent : Q;
  virtual_memory : svmem;
  cpu_percent_percpu : list Q
}.

(** [main(stdscr, advanced_mode)], for the iterations of its endless loop
    that complete before the interrupt; [ticks] holds the samples of
    these iterations.  Exceptions other than [KeyboardInterrupt] leave
    [main]. *)
Definition main (advanced_mode : bool) (cpu_count : Z) (ticks : list tick)
    : M unit :=
  '(cpu_graph, ram_graph) ← basic_init ;
  if advanced_mode
  then
    cpu_graphs ← advanced_init cpu_count ;
    for_each ticks
      (λ t _, basic_update cpu_graph ram_graph
                           (cpu_percent t) (virtual_memory t) ;;
              advanced_update cpu_graphs (cpu_percent_percpu t)) ()
  else
    for_each ticks
      (λ t _, basic_update cpu_graph ram_graph
                           (cpu_percent t) (virtual_memory t)) ().

(** The samples of an iteration that [basic_update] accepts, and those
    that [advanced_update] accepts too for [n] graphs. *)
Definition basic_tick_ok (t : tick) (ram_usage : Z) : Prop :=
  basic_samples_ok (cpu_percent t) (virtual_memory t) ram_usage.

Definition tick_ok (n : nat) (t : tick) (ram_usage : Z) : Prop :=
  basic_tick_ok t ram_usage
  ∧ length (cpu_percent_percpu t) = n
  ∧ Forall (λ u, in_range u = true) (cpu_percent_percpu t).

(** The bounded check on the labels of three-digit core numbers. *)
Definition wide_label_ok (cpu_id : Z) : bool :=
  bool_decide (cpu_id < 100 ∨ length (cpu_label cpu_id) = 6%nat).

(** The bounded check on the width of the pointer text below 100. *)
Definition short_pointer_ok (z : Z) : bool :=
  bool_decide (z = 100 ∨ len (pointer_text z) ≤ 4).

(** ** Binary64 rounding *)

(** A record of [shr] stands for the nonnegative fraction [N / D]: its
    mantissa is the floor, its round bit tells whether the remainder
    reaches one half, its sticky bit whether anything else remains. *)
Definition represents (N D : Z) (mrs : shr_record) : Prop :=
  0 < D ∧ 0 ≤ N
  ∧ shr_m mrs = N / D
  ∧ shr_r mrs = (D <=? 2 * (N mod D))
  ∧ shr_s mrs = negb (N mod D =? 0) && negb (2 * (N mod D) =? D).

(** Where [N / D] lies between its floor and the next integer. *)
Definition loc_of (N D : Z) : location :=
  if N mod D =? 0 then loc_Exact else loc_Inexact (2 * (N mod D) ?= D).

(** [N / D] rounded to the nearest integer, halves to even. *)
Definition rne (N D : Z) : Z := round_nearest_even (N / D) (loc_of N D).

(** The unit roundoff of binary64, 2^-53. *)
Definition eps : Q := 1 # 9007199254740992.

(** The rational value of mantissa [m] at exponent [e]. *)
Definition val (m e : Z) : Q := (inject_Z m * 2 ^ e)%Q.

(** Used memory as a percent of the total, rounded to the nearest
    integer: [round] applied to the exact percentage. *)
Definition percent_rounded (mem_stats : svmem) : Z :=
  round (100 * (total mem_stats - available mem_stats)
         # Z.to_pos (total mem_stats)).



(** ** Evaluation of the Python primitives *)

Example str_0 : Py.str 0 = Py.lit "0". Proof. reflexivity. Qed.
Example str_100 : Py.str 100 = Py.lit "100". Proof. reflexivity. Qed.
Example str_neg : Py.str (-7) = Py.lit "-7". Proof. reflexivity. Qed.
Example round_half_down : Py.round (5 # 2) = 2. Proof. reflexivity. Qed.
Example round_half_up : Py.round (7 # 2) = 4. Proof. reflexivity. Qed.
Example round_neg : Py.round (- 1 # 2) = 0. Proof. reflexivity. Qed.
Example truediv_7_5 : Py.int_of_float (Py.truediv 7 5) = Some 1.
Proof. vm_compute. reflexivity. Qed.
Example truediv_100_5 : Py.int_of_float (Py.truediv 100 5) = Some 20.
Proof. vm_compute. reflexivity. Qed.

(** ** Lemmas on the window *)

Section Window.

Implicit Types (m : gmap (Z * Z) char) (s : pystr) (w : window).

Lemma len_cons c s : len (c :: s) = 1 + len s.
Proof. unfold len. simpl length. lia. Qed.

Lemma len_nonneg s : 0 ≤ len s.
Proof. unfold len. lia. Qed.

Lemma put_chars_lookup y x s m r c :
  put_chars y x s m !! (r, c) =
    if decide (r = y ∧ x ≤ c < x + len s)
    then s !! Z.to_nat (c - x) else m !! (r, c).
Proof.
  revert x m. induction s as [|a s IH]; intros x m; simpl put_chars.
  - case_decide as Hd; [|done]. unfold len in Hd. simpl in Hd. lia.
  - rewrite IH, len_cons. pose proof (len_nonneg s) as Hs.
    destruct (decide (c = x)) as [->|Hne].
    + rewrite Z.sub_diag. simpl.
      destruct (decide (r = y ∧ x + 1 ≤ x < x + 1 + len s)) as [H1|H1]; [lia|].
      destruct (decide (r = y ∧ x ≤ x < x + (1 + len s))) as [H2|H2].
      * destruct H2 as [-> _]. by rewrite lookup_insert_eq.
      * rewrite lookup_insert_ne; [done|]. intros [= ->]. apply H2. lia.
    + rewrite lookup_insert_ne by congruence.
      destruct (decide (r = y ∧ x + 1 ≤ c < x + 1 + len s)) as [H1|H1];
        destruct (decide (r = y ∧ x ≤ c < x + (1 + len s))) as [H2|H2];
        try done; try lia.
      replace (Z.to_nat (c - x)) with (S (Z.to_nat (c - (x + 1)))) by lia.
      done.
Qed.

Lemma put_chars_other_row y x s m r c :
  r ≠ y → put_chars y x s m !! (r, c) = m !! (r, c).
Proof. intros. rewrite put_chars_lookup. case_decide; [tauto | done]. Qed.

(** A row reads as [s] when each of its cells holds the matching
    character. *)
Lemma read_row_is m y x s :
  (∀ i, (i < length s)%nat → m !! (y, x + Z.of_nat i) = s !! i) →
  read_row m y x (length s) = Some <$> s.
Proof.
  intros H. apply list_eq. intros i. unfold read_row.
  rewrite !list_lookup_fmap.
  destruct (decide (i < length s)%nat) as [Hi|Hi].
  - rewrite lookup_seq_lt by done. simpl. rewrite H by done.
    destruct (lookup_lt_is_Some_2 s i Hi) as [c Hc]. rewrite Hc. reflexivity.
  - rewrite lookup_seq_ge by lia. simpl.
    rewrite (lookup_ge_None_2 s i) by lia. done.
Qed.

Lemma read_row_ext m1 m2 y x n :
  (∀ i, (i < n)%nat → m1 !! (y, x + Z.of_nat i) = m2 !! (y, x + Z.of_nat i)) →
  read_row m1 y x n = read_row m2 y x n.
Proof.
  intros H. unfold read_row. apply list_fmap_ext. intros k i Hi.
  apply lookup_seq in Hi. apply H. lia.
Qed.

Lemma upto_check (P : Z → bool) (n : nat) :
  forallb P (upto n) = true → ∀ z, 0 ≤ z < Z.of_nat n → P z = true.
Proof.
  intros H z Hz. rewrite forallb_forall in H. apply H.
  unfold upto. apply in_map_iff. exists (Z.to_nat z). split; [lia|].
  apply in_seq. lia.
Qed.

End Window.

(** ** Lemmas on [call] *)

Section Call.

Implicit Types (g : BarGraph) (m : gmap (Z * Z) char) (w : window) (v : Q).

Lemma in_range_bounds v :
  in_range v = true ↔ (0 <= v)%Q ∧ (v <= 100)%Q.
Proof.
  unfold in_range. rewrite andb_true_iff, !Qle_bool_iff. done.
Qed.

(** Rounding keeps a percentage a percentage. *)
Lemma in_range_round v : in_range v = true → 0 ≤ round v ≤ 100.
Proof.
  rewrite in_range_bounds. destruct v as [n d]. unfold Qle, round. simpl.
  intros [H0 H100].
  pose proof (Z.div_mod n (Zpos d) ltac:(lia)) as Hdm.
  pose proof (Z.mod_pos_bound n (Zpos d) ltac:(lia)) as Hr.
  set (q := n / Zpos d) in *. set (r := n mod Zpos d) in *.
  assert (0 ≤ q) by nia.
  assert (q ≤ 100) by nia.
  destruct (2 * r ?= Zpos d) eqn:Hc.
  - apply Z.compare_eq in Hc. destruct (Z.even q); [lia|]. nia.
  - lia.
  - apply Z.compare_gt_iff in Hc. nia.
Qed.

Lemma round_inject (z : Z) : round (inject_Z z) = z.
Proof.
  unfold round, inject_Z. simpl. rewrite Z.div_1_r, Z.mod_1_r. reflexivity.
Qed.

Lemma in_range_inject (z : Z) : in_range (inject_Z z) = true ↔ 0 ≤ z ≤ 100.
Proof.
  rewrite in_range_bounds. unfold Qle, inject_Z. simpl. lia.
Qed.

(** The bounded check covers every integer percentage. *)
Lemma value_ok_all z : 0 ≤ z ≤ 100 → value_ok z = true.
Proof.
  intros Hz. apply (upto_check value_ok 101); [|lia].
  vm_compute. reflexivity.
Qed.

Lemma value_facts z :
  0 ≤ z ≤ 100 →
  blocks_of z = blocks z
  ∧ blocks z + len (pointer_text z) ≤ 25
  ∧ bar_text z (blocks_of z) = bar_row z
  ∧ length (bar_row z) = 19%nat
  ∧ length (pointer_row (blocks z) z) = 25%nat.
Proof.
  intros Hz. pose proof (value_ok_all z Hz) as H. unfold value_ok in H.
  rewrite !andb_true_iff, !bool_decide_eq_true in H. tauto.
Qed.

(** In range, [call] paints and flushes; nothing is raised. *)
Lemma call_ok g v w :
  in_range v = true →
  call g v w =
    Returned ()
      (Window (painted g (round v) (cells w))
              (bar_y g,
               bar_x g + len (bar_text (round v) (blocks_of (round v))))
              (painted g (round v) (cells w))).
Proof.
  intros H. unfold call, assert_. rewrite H.
  unfold painted, bar_text, mbind, M_bind, mret, M_ret, addstr, refresh.
  destruct (decide (round v ≠ 100)); reflexivity.
Qed.

(** Out of range, the assertion fails before anything is painted. *)
Lemma call_raises g v w :
  in_range v = false →
  call g v w = Raised (AssertionError "Given value not in range <0;100>") w.
Proof. intros H. unfold call, assert_. rewrite H. reflexivity. Qed.

Lemma painted_lookup g z m r c :
  painted g z m !! (r, c) =
    if decide (r = bar_y g
               ∧ bar_x g ≤ c < bar_x g + len (bar_text z (blocks_of z)))
    then bar_text z (blocks_of z) !! Z.to_nat (c - bar_x g)
    else if decide (r = pointer_y g
                    ∧ pointer_x g + blocks_of z ≤ c
                      < pointer_x g + blocks_of z + len (pointer_text z))
    then pointer_text z !! Z.to_nat (c - (pointer_x g + blocks_of z))
    else if decide (r = pointer_y g
                    ∧ pointer_x g ≤ c < pointer_x g + len (times SPACE 25))
    then times SPACE 25 !! Z.to_nat (c - pointer_x g)
    else m !! (r, c).
Proof. unfold painted. rewrite !put_chars_lookup. reflexivity. Qed.

(** Painting the same value again changes nothing. *)
Lemma painted_idem g z m : painted g z (painted g z m) = painted g z m.
Proof.
  apply map_eq. intros [r c]. rewrite !painted_lookup.
  repeat case_decide; reflexivity.
Qed.

(** Only the 25 cells of the pointer row and the 19 cells of the bar are
    painted. *)
Lemma painted_frame g z m r c :
  0 ≤ z ≤ 100 →
  ¬ (r = pointer_y g ∧ pointer_x g ≤ c < pointer_x g + 25) →
  ¬ (r = bar_y g ∧ bar_x g ≤ c < bar_x g + 19) →
  painted g z m !! (r, c) = m !! (r, c).
Proof.
  intros Hz Hp Hb. rewrite painted_lookup.
  destruct (value_facts z Hz) as (Hbl & Hlen & Hbar & Hbarlen & _).
  rewrite Hbar, Hbl.
  assert (0 ≤ blocks z) by (unfold blocks; apply Z.div_pos; lia).
  assert (len (bar_row z) = 19) by (unfold len; lia).
  pose proof (len_nonneg (pointer_text z)).
  change (len (times SPACE 25)) with 25.
  repeat case_decide; try reflexivity; exfalso; lia.
Qed.

(** The bar row shows the bar of the value. *)
Lemma painted_bar_row g z m :
  0 ≤ z ≤ 100 →
  read_row (painted g z m) (bar_y g) (bar_x g) 19 = Some <$> bar_row z.
Proof.
  intros Hz. destruct (value_facts z Hz) as (_ & _ & Hbar & Hbarlen & _).
  rewrite <- Hbarlen. apply read_row_is. intros i Hi.
  rewrite painted_lookup, Hbar. unfold len.
  case_decide as Hd; [|exfalso; apply Hd; lia].
  f_equal. lia.
Qed.

(** The pointer row shows the pointer text after [blocks] blanks and
    nothing else. *)
Lemma painted_pointer_row g z m :
  wf g → 0 ≤ z ≤ 100 →
  read_row (painted g z m) (pointer_y g) (pointer_x g) 25
  = Some <$> pointer_row (blocks z) z.
Proof.
  intros [Hy Hx] Hz.
  destruct (value_facts z Hz) as (Hbl & Hlen & _ & _ & Hrow).
  rewrite <- Hrow. apply read_row_is. rewrite Hrow. intros i Hi.
  rewrite painted_lookup, Hbl.
  assert (0 ≤ blocks z) as Hb0 by (unfold blocks; apply Z.div_pos; lia).
  unfold len in *. unfold pointer_row.
  case_decide as H1; [lia|].
  case_decide as H2.
  - rewrite lookup_app_r by (rewrite length_replicate; lia).
    rewrite lookup_app_l by (rewrite length_replicate; lia).
    rewrite length_replicate. f_equal. lia.
  - change (length (times SPACE 25)) with 25%nat.
    case_decide as H3; [|exfalso; apply H3; lia].
    unfold times. rewrite lookup_replicate_2 by lia.
    destruct (decide (Z.of_nat i < blocks z)) as [Hlt|Hge].
    + rewrite lookup_app_l by (rewrite length_replicate; lia).
      rewrite lookup_replicate_2 by lia. reflexivity.
    + rewrite lookup_app_r by (rewrite length_replicate; lia).
      rewrite lookup_app_r by (rewrite length_replicate; lia).
      rewrite lookup_replicate_2; [reflexivity|].
      rewrite length_replicate. lia.
Qed.

End Call.

(** ** Lemmas on construction and layout *)

Section Layout.

Implicit Types (g : BarGraph) (m : gmap (Z * Z) char) (w : window).

Lemma new_graph_wf pos_y pos_x label : wf (new_graph pos_y pos_x label).
Proof. unfold wf, new_graph. simpl. lia. Qed.

(** [__init__] never raises; it returns the graph's attributes, draws
    the static frame and flushes. *)
Lemma BarGraph_init_ok pos_y pos_x label w :
  BarGraph_init pos_y pos_x label w =
    Returned (new_graph pos_y pos_x label)
      (Window (init_cells pos_y pos_x label (cells w))
              (pos_y + 1 + 1, pos_x + len label + 2 + 18 + len (lit "100"))
              (init_cells pos_y pos_x label (cells w))).
Proof. reflexivity. Qed.

Lemma init_static_frame pos_y pos_x label m :
  static_frame pos_y pos_x label (init_cells pos_y pos_x label m).
Proof.
  unfold static_frame, init_cells, new_graph.
  cbn [bar_y bar_x pointer_y pointer_x].
  pose proof (len_nonneg label) as Hl.
  assert (len (label ++ lit " |" ++ times EMPTY 19 ++ lit "|")
          = len label + 22) as Hlen.
  { unfold len. rewrite !length_app. simpl. lia. }
  repeat split.
  - apply read_row_is. intros i Hi.
    rewrite !put_chars_other_row by lia.
    rewrite put_chars_lookup, Hlen.
    rewrite length_app in Hi. simpl in Hi.
    case_decide as Hd; [|exfalso; apply Hd; unfold len; lia].
    replace (Z.to_nat (pos_x + Z.of_nat i - pos_x)) with i by lia.
    rewrite (app_assoc label (lit " |")).
    rewrite lookup_app_l; [done|]. rewrite length_app. simpl. lia.
  - rewrite !put_chars_other_row by lia.
    rewrite put_chars_lookup, Hlen.
    case_decide as Hd; [|exfalso; apply Hd; lia].
    replace (Z.to_nat (pos_x + len label + 2 + 19 - pos_x))
      with (length label + 21)%nat by (unfold len; lia).
    rewrite lookup_app_r by lia.
    replace (length label + 21 - length label)%nat with 21%nat by lia.
    reflexivity.
  - rewrite !put_chars_lookup.
    change (len (lit "100")) with 3. change (len (lit "0")) with 1.
    case_decide as H1; [lia|].
    case_decide as H2; [|exfalso; apply H2; lia].
    replace (Z.to_nat _) with 0%nat by lia. reflexivity.
  - apply (read_row_is _ _ _ (lit "100")). intros i Hi. simpl in Hi.
    rewrite put_chars_lookup. change (len (lit "100")) with 3.
    case_decide as H1; [|exfalso; apply H1; lia].
    f_equal. lia.
Qed.

(** The static frame lies outside what [call] paints. *)
Lemma painted_static_frame pos_y pos_x label z m :
  0 ≤ z ≤ 100 →
  static_frame pos_y pos_x label m →
  static_frame pos_y pos_x label (painted (new_graph pos_y pos_x label) z m).
Proof.
  intros Hz (Hlabel & Hclose & Hzero & Hscale).
  pose proof (len_nonneg label) as Hl.
  unfold static_frame in *. simpl in *.
  repeat split.
  - rewrite <- Hlabel. apply read_row_ext. intros i Hi.
    rewrite length_app in Hi. simpl in Hi.
    apply painted_frame; [done| |]; simpl; unfold len; lia.
  - rewrite <- Hclose. apply painted_frame; [done| |]; simpl; lia.
  - rewrite <- Hzero. apply painted_frame; [done| |]; simpl; lia.
  - rewrite <- Hscale. apply read_row_ext. intros i Hi.
    apply painted_frame; [done| |]; simpl; lia.
Qed.

Lemma for_each_app {A S} (xs ys : list A) (body : A → S → M S) st w :
  for_each (xs ++ ys) body st w =
    match for_each xs body st w with
    | Returned st' w' => for_each ys body st' w'
    | Raised e w' => Raised e w'
    end.
Proof.
  revert st w. induction xs as [|x xs IH]; intros st w; simpl; [done|].
  unfold mbind, M_bind. destruct (body x st w); [apply IH | done].
Qed.

(** The loop of [advanced_init] never raises and appends the graphs of
    [layout_rows]. *)
Lemma advanced_rows_ok rows cpu_id gs w :
  ∃ w', for_each rows advanced_init_row (cpu_id, gs) w
        = Returned (cpu_id + 2 * Z.of_nat (length rows),
                    gs ++ layout_rows rows cpu_id) w'.
Proof.
  revert cpu_id gs w. induction rows as [|row rows IH]; intros cpu_id gs w.
  - exists w. simpl. unfold mret, M_ret. rewrite app_nil_r.
    f_equal. f_equal. lia.
  - simpl for_each. unfold mbind, M_bind, advanced_init_row.
    rewrite BarGraph_init_ok. rewrite BarGraph_init_ok.
    unfold mret, M_ret.
    edestruct IH as [w' Hw']. rewrite Hw'. exists w'.
    f_equal. f_equal; [simpl length; lia|].
    simpl layout_rows. rewrite <- !app_assoc. simpl app.
    replace (cpu_id + 1 + 1) with (cpu_id + 2) by lia. reflexivity.
Qed.

(** [advanced_init] never raises; the graphs it returns depend on the
    core count only. *)
Lemma advanced_init_ok cpu_count w :
  ∃ w', advanced_init cpu_count w = Returned (layout cpu_count) w'.
Proof.
  unfold advanced_init. fold (rows_of cpu_count).
  unfold mbind at 1 2 3. unfold M_bind at 1 2 3.
  destruct (rectangle _ _ _ _ w) as [[] w1|] eqn:Hr; [|discriminate Hr].
  unfold addstr at 1.
  edestruct advanced_rows_ok as [w' Hw']. rewrite Hw'.
  exists w'. reflexivity.
Qed.

End Layout.

(** ** Properties of the update operation *)

(** The pointer text sits [blocks] columns right of the pointer anchor. *)
Lemma painted_pointer_text g z m :
  wf g → 0 ≤ z ≤ 100 →
  read_row (painted g z m) (pointer_y g) (pointer_x g + blocks z)
           (length (pointer_text z))
  = Some <$> pointer_text z.
Proof.
  intros [Hy Hx] Hz. destruct (value_facts z Hz) as (Hbl & _).
  apply read_row_is. intros i Hi.
  rewrite painted_lookup, Hbl. unfold len.
  case_decide as H1; [lia|].
  case_decide as H2; [|exfalso; apply H2; lia].
  f_equal. lia.
Qed.

(** The pointer glyph itself is the first character of that text. *)
Lemma painted_pointer_glyph g z m :
  wf g → 0 ≤ z ≤ 100 →
  painted g z m !! (pointer_y g, pointer_x g + blocks z) = Some POINTER.
Proof.
  intros [Hy Hx] Hz. destruct (value_facts z Hz) as (Hbl & _).
  rewrite painted_lookup, Hbl. unfold pointer_text. rewrite len_cons.
  pose proof (len_nonneg (str z ++ [PERCENT])).
  case_decide as H1; [lia|].
  case_decide as H2; [|exfalso; apply H2; lia].
  rewrite Z.sub_diag. reflexivity.
Qed.

(** C1: for every integer [v] in [0,100] the update computes
    [blocks(v) = floor(v/5)]; the bar row then holds [min(blocks(v), 19)]
    filled glyphs followed by [19 - blocks(v)] empty ones when [v < 100],
    and [blocks(100) - 1 = 19] filled glyphs when [v = 100], with no cell
    of that row outside the 19 painted. *)
Theorem C1_bar_blocks (g : BarGraph) (v : Z) (w : window) :
  wf g → 0 ≤ v ≤ 100 →
  blocks_of v = v / 5
  ∧ ∃ w', call g (inject_Z v) w = Returned () w'
    ∧ (v < 100 →
       shown w' (bar_y g) (bar_x g) 19
       = Some <$> (replicate (Z.to_nat (Z.min (v / 5) 19)) FILLED
                   ++ replicate (Z.to_nat (19 - v / 5)) EMPTY))
    ∧ (v = 100 →
       v / 5 - 1 = 19
       ∧ shown w' (bar_y g) (bar_x g) 19
         = Some <$> replicate (Z.to_nat (v / 5 - 1)) FILLED)
    ∧ ∀ c, ¬ (bar_x g ≤ c < bar_x g + 19) →
           cells w' !! (bar_y g, c) = cells w !! (bar_y g, c).
Proof.
  intros Hwf Hv. destruct (value_facts v Hv) as (Hbl & _).
  split; [exact Hbl|].
  eexists. split.
  { rewrite call_ok by (apply in_range_inject; exact Hv). reflexivity. }
  unfold shown. cbn [screen cells]. rewrite round_inject.
  rewrite painted_bar_row by exact Hv.
  split; [|split].
  - intros _. reflexivity.
  - intros ->. split; reflexivity.
  - intros c Hc. apply painted_frame; [exact Hv| |tauto].
    destruct Hwf as [Hy _]. lia.
Qed.

Lemma C1_bar_blocks_witness :
  blocks_of 50 = 10
  ∧ ∃ w', call (new_graph 1 3 (lit "CPU")) (inject_Z 50) (Window ∅ (0, 0) ∅)
          = Returned () w'
    ∧ shown w' 2 8 19
      = Some <$> (replicate 10 FILLED ++ replicate 9 EMPTY).
Proof.
  destruct (C1_bar_blocks (new_graph 1 3 (lit "CPU")) 50 (Window ∅ (0, 0) ∅))
    as (Hb & w' & Hc & Hlt & _).
  - apply new_graph_wf.
  - lia.
  - split; [exact Hb|]. exists w'. split; [exact Hc|]. apply Hlt. lia.
Defined.

(** C2, as the code has it: for every value [v] in [0,100] the pointer text
    "┌<round(v)>%" is drawn [floor(round(v)/5)] columns right of the
    pointer anchor, which is the column of the opening bracket, one column
    left of the bar start; for [v = 0] the pointer sits at that anchor. *)
Theorem C2_pointer_offset (g : BarGraph) (v : Q) (w : window) :
  wf g → in_range v = true →
  blocks_of (round v) = round v / 5
  ∧ ∃ w', call g v w = Returned () w'
    ∧ shown w' (pointer_y g) (bar_x g - 1 + round v / 5)
            (length (pointer_text (round v)))
      = Some <$> pointer_text (round v)
    ∧ (round v = 0 → screen w' !! (pointer_y g, bar_x g - 1) = Some POINTER).
Proof.
  intros Hwf Hv. pose proof (in_range_round v Hv) as Hz.
  destruct (value_facts _ Hz) as (Hbl & _).
  split; [exact Hbl|].
  eexists. split; [rewrite call_ok by exact Hv; reflexivity|].
  unfold shown. cbn [screen].
  pose proof (painted_pointer_text g (round v) (cells w) Hwf Hz) as Hp.
  pose proof (painted_pointer_glyph g (round v) (cells w) Hwf Hz) as Hg.
  destruct Hwf as [Hy Hx].
  replace (bar_x g - 1) with (pointer_x g) by lia.
  split; [exact Hp|].
  intros H0. rewrite H0 in Hg. unfold blocks in Hg.
  change (0 / 5) with 0 in Hg. rewrite Z.add_0_r in Hg.
  rewrite H0. exact Hg.
Qed.

Lemma C2_pointer_offset_witness :
  ∃ w', call (new_graph 1 3 (lit "CPU")) (101 # 2) (Window ∅ (0, 0) ∅)
        = Returned () w'
    ∧ shown w' 1 17 4 = Some <$> pointer_text 50.
Proof.
  destruct (C2_pointer_offset (new_graph 1 3 (lit "CPU")) (101 # 2)
              (Window ∅ (0, 0) ∅))
    as (_ & w' & Hc & Hp & _).
  - apply new_graph_wf.
  - reflexivity.
  - exists w'. split; [exact Hc | exact Hp].
Defined.

(** C2 as stated fails: the pointer text is not at column offset
    [blocks] from the bar-start column.  For the "CPU" graph of the basic
    layout and [v = 0] the pointer glyph is at column 7, under which the
    opening bracket stands, and the bar starts at column 8, where the
    pointer row shows the digit "0". *)
Lemma C2_pointer_not_at_bar_start :
  ¬ (∀ (g : BarGraph) (v : Q) (w : window),
       wf g → in_range v = true →
       ∃ w', call g v w = Returned () w'
         ∧ shown w' (pointer_y g) (bar_x g + round v / 5)
                 (length (pointer_text (round v)))
           = Some <$> pointer_text (round v)).
Proof.
  intros H.
  destruct (H (new_graph 1 3 (lit "CPU")) 0%Q (Window ∅ (0, 0) ∅)
              (new_graph_wf _ _ _) eq_refl) as (w' & Hc & Hp).
  rewrite call_ok in Hc by reflexivity.
  injection Hc as <-. vm_compute in Hp. discriminate Hp.
Qed.

(** C5: for every value below 0 or above 100 the update fails its
    assertion with the message of the source and paints nothing: cells,
    cursor and terminal are as before the call. *)
Theorem C5_out_of_range_rejected (g : BarGraph) (v : Q) (w : window) :
  (v < 0 ∨ 100 < v)%Q →
  call g v w = Raised (AssertionError "Given value not in range <0;100>") w.
Proof.
  intros Hv. apply call_raises.
  destruct (in_range v) eqn:Hr; [|reflexivity].
  apply in_range_bounds in Hr. destruct Hr as [H0 H100].
  destruct Hv as [Hv|Hv].
  - exfalso. eapply Qlt_not_le; eassumption.
  - exfalso. eapply Qlt_not_le; eassumption.
Qed.

Lemma C5_out_of_range_rejected_witness :
  call (new_graph 1 3 (lit "CPU")) (-1) (Window ∅ (0, 0) ∅)
  = Raised (AssertionError "Given value not in range <0;100>")
           (Window ∅ (0, 0) ∅)
  ∧ call (new_graph 1 3 (lit "CPU")) 101 (Window ∅ (0, 0) ∅)
    = Raised (AssertionError "Given value not in range <0;100>")
             (Window ∅ (0, 0) ∅).
Proof.
  split.
  - apply (C5_out_of_range_rejected (new_graph 1 3 (lit "CPU")) (-1)).
    left. reflexivity.
  - apply (C5_out_of_range_rejected (new_graph 1 3 (lit "CPU")) 101).
    right. reflexivity.
Defined.

(** C6: for every value in [0,100] and every window, two updates in a row
    have the outcome of one: the same cells, cursor and terminal. *)
Theorem C6_update_idempotent (g : BarGraph) (v : Q) (w : window) :
  in_range v = true →
  (call g v ;; call g v) w = call g v w.
Proof.
  intros Hv. unfold mbind, M_bind.
  rewrite (call_ok g v w Hv). rewrite call_ok by exact Hv.
  cbn [cells]. rewrite painted_idem. reflexivity.
Qed.

Lemma C6_update_idempotent_witness :
  (call (new_graph 1 3 (lit "CPU")) 100 ;; call (new_graph 1 3 (lit "CPU")) 100)
    (Window ∅ (0, 0) ∅)
  = call (new_graph 1 3 (lit "CPU")) 100 (Window ∅ (0, 0) ∅).
Proof.
  apply (C6_update_idempotent (new_graph 1 3 (lit "CPU")) 100
           (Window ∅ (0, 0) ∅)).
  reflexivity.
Defined.

(** ** Sequences of updates *)

(** A property of the cells that every in-range repaint keeps is kept by
    any sequence of in-range updates, none of which raises. *)
Lemma calls_invariant (P : gmap (Z * Z) char → Prop) g vs w :
  (∀ z m, 0 ≤ z ≤ 100 → P m → P (painted g z m)) →
  Forall (λ u, in_range u = true) vs →
  P (cells w) →
  ∃ w', calls g vs w = Returned () w' ∧ P (cells w').
Proof.
  intros Hstep Hvs. revert w. induction Hvs as [|v vs Hv _ IH]; intros w HP.
  - exists w. split; [reflexivity | exact HP].
  - unfold calls. simpl for_each. unfold mbind, M_bind.
    rewrite call_ok by exact Hv. apply IH. cbn [cells].
    apply Hstep; [apply in_range_round; exact Hv | exact HP].
Qed.

Lemma calls_snoc g vs v w :
  calls g (vs ++ [v]) w =
    match calls g vs w with
    | Returned _ w' => call g v w'
    | Raised e w' => Raised e w'
    end.
Proof.
  unfold calls. rewrite for_each_app.
  destruct (for_each vs _ () w) as [[] w'|]; [|reflexivity].
  simpl. unfold mbind, M_bind.
  destruct (call g v w') as [[] w''|]; reflexivity.
Qed.

(** C7: after any sequence of updates with values in [0,100], the 25
    cells of the pointer row from the pointer anchor show the pointer text
    of the last value at its block offset and blanks elsewhere, and the 19
    bar cells show the bar of the last value; the text of any value in
    range ends within those 25 cells, so the blank overwrite covers
    whatever an earlier pointer occupied. *)
Theorem C7_last_value_displayed (g : BarGraph) (vs : list Q) (v : Q)
    (w : window) :
  wf g → Forall (λ u, in_range u = true) vs → in_range v = true →
  ∃ w', calls g (vs ++ [v]) w = Returned () w'
    ∧ shown w' (pointer_y g) (pointer_x g) 25
      = Some <$> pointer_row (round v / 5) (round v)
    ∧ shown w' (bar_y g) (bar_x g) 19 = Some <$> bar_row (round v)
    ∧ ∀ u, in_range u = true →
        0 ≤ blocks_of (round u)
        ∧ blocks_of (round u) + len (pointer_text (round u)) ≤ 25.
Proof.
  intros Hwf Hvs Hv.
  destruct (calls_invariant (λ _, True) g vs w) as (w1 & Hw1 & _);
    [done | exact Hvs | exact I |].
  pose proof (in_range_round v Hv) as Hz.
  eexists. split.
  { rewrite calls_snoc, Hw1, call_ok by exact Hv. reflexivity. }
  unfold shown. cbn [screen].
  split; [apply painted_pointer_row; assumption|].
  split; [apply painted_bar_row; assumption|].
  intros u Hu. pose proof (in_range_round u Hu) as Hzu.
  destruct (value_facts _ Hzu) as (Hbl & Hlen & _).
  rewrite Hbl. split; [unfold blocks; apply Z.div_pos; lia | exact Hlen].
Qed.

Lemma C7_last_value_displayed_witness :
  ∃ w', calls (new_graph 1 3 (lit "CPU")) ([100; 7 # 2; 0] ++ [42])%Q
              (Window ∅ (0, 0) ∅) = Returned () w'
    ∧ shown w' 1 7 25 = Some <$> pointer_row 8 42
    ∧ shown w' 2 8 19 = Some <$> bar_row 42.
Proof.
  destruct (C7_last_value_displayed (new_graph 1 3 (lit "CPU"))
              [100; 7 # 2; 0]%Q 42%Q (Window ∅ (0, 0) ∅))
    as (w' & Hc & Hp & Hb & _).
  - apply new_graph_wf.
  - repeat constructor.
  - reflexivity.
  - exists w'. split; [exact Hc|]. split; [exact Hp | exact Hb].
Defined.

(** C8: after construction, any sequence of updates with values in
    [0,100] leaves every cell outside the pointer row and outside the 19
    bar cells as construction left it; the label, separator and opening
    bracket, the closing bracket and the scale "0" ... "100" drawn at
    construction are still in place. *)
Theorem C8_static_frame_untouched (pos_y pos_x : Z) (label : list N)
    (vs : list Q) (w : window) (r c : Z) :
  Forall (λ u, in_range u = true) vs →
  let g := new_graph pos_y pos_x label in
  ∃ w0 w1,
    BarGraph_init pos_y pos_x label w = Returned g w0
    ∧ calls g vs w0 = Returned () w1
    ∧ static_frame pos_y pos_x label (cells w0)
    ∧ static_frame pos_y pos_x label (cells w1)
    ∧ (r ≠ pointer_y g →
       ¬ (r = bar_y g ∧ bar_x g ≤ c < bar_x g + 19) →
       cells w1 !! (r, c) = cells w0 !! (r, c)).
Proof.
  intros Hvs g. rewrite BarGraph_init_ok. eexists. 
  set (w0 := Window _ _ _).
  destruct (calls_invariant
              (λ m, static_frame pos_y pos_x label m
                    ∧ (r ≠ pointer_y g →
                       ¬ (r = bar_y g ∧ bar_x g ≤ c < bar_x g + 19) →
                       m !! (r, c) = cells w0 !! (r, c)))
              g vs w0) as (w1 & Hw1 & Hs & Hf).
  - intros z m Hz [Hs Hf]. split.
    + apply painted_static_frame; assumption.
    + intros Hr Hb. rewrite <- (Hf Hr Hb).
      apply painted_frame; [exact Hz| |exact Hb]. tauto.
  - exact Hvs.
  - split; [apply init_static_frame | done].
  - exists w1. split; [reflexivity|]. split; [exact Hw1|].
    split; [apply init_static_frame|]. split; [exact Hs | exact Hf].
Qed.

Lemma C8_static_frame_untouched_witness :
  ∃ w0 w1,
    BarGraph_init 1 3 (lit "CPU") (Window ∅ (0, 0) ∅)
    = Returned (new_graph 1 3 (lit "CPU")) w0
    ∧ calls (new_graph 1 3 (lit "CPU")) [100; 0; 55]%Q w0 = Returned () w1
    ∧ static_frame 1 3 (lit "CPU") (cells w1)
    ∧ cells w1 !! (2, 7) = cells w0 !! (2, 7).
Proof.
  destruct (C8_static_frame_untouched 1 3 (lit "CPU") [100; 0; 55]%Q
              (Window ∅ (0, 0) ∅) 2 7)
    as (w0 & w1 & Hi & Hc & _ & Hs & Hf).
  - repeat constructor.
  - exists w0, w1. split; [exact Hi|]. split; [exact Hc|].
    split; [exact Hs|]. apply Hf; [cbv; discriminate|].
    change (bar_x (new_graph 1 3 (lit "CPU"))) with 8. lia.
Defined.

(** ** Layout and the per-core update *)

Lemma graph_at_even k :
  graph_at (2 * k) = new_graph (3 * k + 6) 1 (cpu_label (2 * k + 1)).
Proof.
  unfold graph_at. rewrite (Z.mul_comm 2 k), Z.div_mul by lia.
  rewrite Z.even_mul, orb_true_r. reflexivity.
Qed.

Lemma graph_at_odd k :
  graph_at (2 * k + 1) = new_graph (3 * k + 6) 32 (cpu_label (2 * k + 1 + 1)).
Proof.
  unfold graph_at. rewrite (Z.mul_comm 2 k), Z.div_add_l by lia.
  change (1 / 2) with 0. rewrite Z.add_0_r.
  rewrite Z.even_add, Z.even_mul, orb_true_r. reflexivity.
Qed.

(** The graph at position [i] of the layout is the one the row-major
    numbering gives: row [i / 2], left or right by parity, core [i + 1]. *)
Lemma layout_rows_lookup (k n i : nat) (g : BarGraph) :
  layout_rows (Z.of_nat <$> seq k n) (2 * Z.of_nat k + 1) !! i = Some g →
  g = graph_at (2 * Z.of_nat k + Z.of_nat i).
Proof.
  revert k i g. induction n as [|n IH]; intros k i g; [done|].
  cbn [seq fmap list_fmap layout_rows].
  destruct i as [|[|i]].
  - intros [= <-]. rewrite <- graph_at_even. f_equal. lia.
  - intros [= <-]. rewrite <- graph_at_odd. f_equal.
  - intros H. cbn [lookup list_lookup] in H.
    replace (2 * Z.of_nat k + 1 + 2) with (2 * Z.of_nat (S k) + 1) in H by lia.
    apply IH in H. rewrite H. f_equal. lia.
Qed.

Lemma layout_lookup cpu_count (i : nat) g :
  layout cpu_count !! i = Some g → g = graph_at (Z.of_nat i).
Proof.
  unfold layout, range. intros H.
  apply (layout_rows_lookup 0) in H. exact H.
Qed.

Lemma layout_rows_length rows cpu_id :
  length (layout_rows rows cpu_id) = (2 * length rows)%nat.
Proof.
  revert cpu_id. induction rows as [|row rows IH]; intros cpu_id; simpl;
    [done|]. rewrite IH. lia.
Qed.

(** Two graphs per row, whatever the core count. *)
Lemma layout_length cpu_count :
  length (layout cpu_count) = (2 * Z.to_nat (rows_of cpu_count))%nat.
Proof.
  unfold layout, range. rewrite layout_rows_length, length_fmap, length_seq.
  reflexivity.
Qed.

(** Labels of one- and two-digit core numbers are five characters wide. *)
Lemma cpu_label_length cpu_id :
  1 ≤ cpu_id ≤ 99 → length (cpu_label cpu_id) = 5%nat.
Proof.
  intros H.
  assert (label_ok cpu_id = true) as Hc.
  { apply (upto_check label_ok 100); [vm_compute; reflexivity | lia]. }
  apply bool_decide_eq_true in Hc. destruct Hc; [lia | done].
Qed.

(** The loop over the zipped graphs and samples pushes by position. *)
Lemma zip_pushes_by_position gs us pre_g pre_u w :
  length gs = length us → length pre_g = length pre_u →
  for_each (zip gs us) (λ '(graph, cpu_usage) _, call graph cpu_usage) () w
  = push_from (pre_g ++ gs) (pre_u ++ us) (length pre_g) (length gs) w.
Proof.
  revert us pre_g pre_u w.
  induction gs as [|g gs IH]; intros [|u us] pre_g pre_u w Hl Hp;
    simpl in Hl; try discriminate Hl; [reflexivity|].
  simpl. rewrite list_lookup_middle by reflexivity.
  rewrite list_lookup_middle by exact Hp.
  unfold mbind, M_bind.
  destruct (call g u w) as [[] w1|e w1]; [|reflexivity].
  rewrite (IH us (pre_g ++ [g]) (pre_u ++ [u]) w1);
    [|lia|rewrite !length_app; simpl; lia].
  rewrite <- !app_assoc, length_app. simpl.
  replace (length pre_g + 1)%nat with (S (length pre_g)) by lia.
  reflexivity.
Qed.

(** Evaluation of the layout for an odd core count: five cores give two
    rows, hence four graphs, and the fifth core has none. *)
Example rows_of_5 : rows_of 5 = 2.
Proof. vm_compute. reflexivity. Qed.

Example layout_8 : layout 8 = graph_at <$> upto 8.
Proof. vm_compute. reflexivity. Qed.

(** For the core counts a label can number with two digits, the layout is
    the row-major numbering of [2 * floor(cpu_count / 2)] graphs. *)
Lemma layout_bounded cpu_count :
  0 ≤ cpu_count ≤ 99 →
  rows_of cpu_count = cpu_count / 2
  ∧ layout cpu_count = graph_at <$> upto (2 * Z.to_nat (cpu_count / 2)).
Proof.
  intros H.
  assert (layout_ok cpu_count = true) as Hc.
  { apply (upto_check layout_ok 100); [vm_compute; reflexivity | lia]. }
  apply bool_decide_eq_true in Hc. exact Hc.
Qed.

(** For an even core count (below 100) the layout has one graph per core,
    in rows of two, numbered row by row from the left; eight cores give
    four rows. *)
Lemma advanced_init_even (cpu_count : Z) (w : window) :
  0 ≤ cpu_count ≤ 99 → Z.even cpu_count = true →
  ∃ w', advanced_init cpu_count w
        = Returned (graph_at <$> upto (Z.to_nat cpu_count)) w'
    ∧ rows_of cpu_count = (cpu_count + 1) / 2.
Proof.
  intros Hc He. destruct (layout_bounded cpu_count Hc) as [Hr Hl].
  destruct (advanced_init_ok cpu_count w) as [w' Hw'].
  destruct (Zeven_ex cpu_count) as [k Hk]; [apply Zeven_bool_iff; exact He|].
  assert (cpu_count / 2 = k) as Hk2
    by (symmetry; apply Z.div_unique with 0; lia).
  assert ((cpu_count + 1) / 2 = k) as Hk3
    by (symmetry; apply Z.div_unique with 1; lia).
  exists w'. rewrite Hw', Hl, Hr, Hk2, Hk3.
  split; [|reflexivity]. do 3 f_equal. lia.
Qed.

(** The labels [advanced_init] draws for eight cores, read back from the
    window: "CPU1 " to "CPU8 ", left to right, top to bottom. *)
Example advanced_init_8_labels :
  let m := cells (window_of (advanced_init 8 (Window ∅ (0, 0) ∅))) in
  (λ '(y, x), read_row m y x 5)
    <$> [(7, 1); (7, 32); (10, 1); (10, 32); (13, 1); (13, 32); (16, 1); (16, 32)]
  = (λ i, Some <$> cpu_label i) <$> [1; 2; 3; 4; 5; 6; 7; 8].
Proof. vm_compute. reflexivity. Qed.

(** C3, evaluated at an odd core count: with five cores the code computes
    [int(5 / 2) = 2] rows where [ceil(5 / 2) = 3], creates the four graphs
    of cores 1 to 4 and none for core 5; the next [advanced_update], given
    the five samples of the five cores, fails its own assertion. *)
Theorem C3_five_cores_four_graphs (w : window) :
  rows_of 5 = 2
  ∧ (5 + 1) / 2 = 3
  ∧ ∃ w',
      advanced_init 5 w
      = Returned [graph_at 0; graph_at 1; graph_at 2; graph_at 3] w'
      ∧ advanced_update [graph_at 0; graph_at 1; graph_at 2; graph_at 3]
                        [10; 20; 30; 40; 50]%Q w'
        = Raised (AssertionError
                    "Quantity of graphs do not match quantity of CPUs") w'.
Proof.
  split; [vm_compute; reflexivity|]. split; [reflexivity|].
  destruct (advanced_init_ok 5 w) as [w' Hw'].
  exists w'. split; [rewrite Hw'; reflexivity | reflexivity].
Qed.

(** With as many samples as graphs, all in range, no update raises. *)
Lemma pushes_return (ps : list (BarGraph * Q)) (w : window) :
  Forall (λ p, in_range p.2 = true) ps →
  ∃ w', for_each ps (λ '(graph, cpu_usage) _, call graph cpu_usage) () w
        = Returned () w'.
Proof.
  intros H. revert w. induction H as [|[g u] ps Hu _ IH]; intros w.
  - exists w. reflexivity.
  - simpl. unfold mbind, M_bind. simpl in Hu.
    rewrite call_ok by exact Hu. apply IH.
Qed.

(** C4: when the number of graphs and the number of samples differ,
    [advanced_update] fails its assertion with the message of the source
    and the window is untouched; when they are equal, it is the sequence
    of updates that pushes the sample at each position to the graph at
    that position, and it returns when every sample is in range. *)
Theorem C4_length_validation (gs : list BarGraph) (us : list Q) (w : window) :
  (length gs ≠ length us →
   advanced_update gs us w
   = Raised (AssertionError
               "Quantity of graphs do not match quantity of CPUs") w)
  ∧ (length gs = length us →
     advanced_update gs us w = push_from gs us 0 (length gs) w
     ∧ (Forall (λ u, in_range u = true) us →
        ∃ w', advanced_update gs us w = Returned () w')).
Proof.
  unfold advanced_update, assert_. split; intros H.
  - rewrite bool_decide_eq_false_2 by exact H. reflexivity.
  - rewrite bool_decide_eq_true_2 by exact H.
    unfold mbind, M_bind, mret, M_ret. split.
    + apply (zip_pushes_by_position gs us [] [] w H eq_refl).
    + intros Hus. apply pushes_return.
      apply Forall_forall. intros [g u] Hin.
      apply elem_of_zip_r in Hin. simpl.
      rewrite Forall_forall in Hus. apply Hus. exact Hin.
Qed.

Lemma C4_length_validation_witness :
  advanced_update [graph_at 0; graph_at 1] [10; 20; 30]%Q (Window ∅ (0, 0) ∅)
  = Raised (AssertionError
              "Quantity of graphs do not match quantity of CPUs")
           (Window ∅ (0, 0) ∅)
  ∧ advanced_update [graph_at 0; graph_at 1] [10; 20]%Q (Window ∅ (0, 0) ∅)
    = push_from [graph_at 0; graph_at 1] [10; 20]%Q 0 2 (Window ∅ (0, 0) ∅).
Proof.
  split.
  - apply (C4_length_validation [graph_at 0; graph_at 1] [10; 20; 30]%Q
             (Window ∅ (0, 0) ∅)).
    simpl. lia.
  - apply (C4_length_validation [graph_at 0; graph_at 1] [10; 20]%Q
             (Window ∅ (0, 0) ∅)).
    reflexivity.
Defined.

(** Every snapshot with a total of at most 48 units gets a nearest
    integer to its exact percentage. *)
Example ram_usage_nearest_small :
  forallb (λ t, forallb (λ a, nearest_percent (mk_svmem (t + 1) a))
                        (upto (Z.to_nat (t + 2))))
          (upto 48) = true.
Proof. vm_compute. reflexivity. Qed.

Example ram_usage_tie : ram_usage_of (mk_svmem 200 85) = Some 57.
Proof. vm_compute. reflexivity. Qed.

Example ram_usage_tie_gib :
  ram_usage_of (mk_svmem 13421772800 5704253440) = Some 57.
Proof. vm_compute. reflexivity. Qed.

(** ** Binary64 division and multiplication

    The percentage of [basic_update] goes through one division and one
    multiplication of binary64.  Each is the exact result up to a
    relative error of 2^-53; for totals below 2^44 this is too little to
    move the rounded percentage away from a nearest integer. *)

(** The number of binary digits of a positive number. *)
Lemma digits2_pos_spec p :
  2 ^ (Zpos (digits2_pos p) - 1) ≤ Zpos p < 2 ^ Zpos (digits2_pos p).
Proof.
  induction p as [p IH|p IH|]; simpl digits2_pos.
  - rewrite Pos2Z.inj_succ. replace (Z.succ (Zpos (digits2_pos p)) - 1)
      with (Z.succ (Zpos (digits2_pos p) - 1)) by lia.
    rewrite !Z.pow_succ_r by lia. lia.
  - rewrite Pos2Z.inj_succ. replace (Z.succ (Zpos (digits2_pos p)) - 1)
      with (Z.succ (Zpos (digits2_pos p) - 1)) by lia.
    rewrite !Z.pow_succ_r by lia. lia.
  - simpl. lia.
Qed.

Lemma digits_unique (m n : Z) :
  0 < m → 2 ^ (n - 1) ≤ m < 2 ^ n → Zdigits2 m = n.
Proof.
  intros Hm [Hlo Hhi]. destruct m as [|p|p]; try lia. simpl.
  pose proof (digits2_pos_spec p) as [Hl Hh].
  set (d := Zpos (digits2_pos p)) in *.
  assert (0 < n).
  { destruct (Z.lt_trichotomy n 0) as [Hn|[Hn|Hn]]; [|subst n; simpl in Hhi; lia|exact Hn].
    rewrite Z.pow_neg_r in Hhi by lia. lia. }
  destruct (Z.lt_trichotomy d n) as [Hlt|[Heq|Hgt]]; [|exact Heq|].
  - assert (2 ^ d ≤ 2 ^ (n - 1)) by (apply Z.pow_le_mono_r; lia). lia.
  - assert (2 ^ n ≤ 2 ^ (d - 1)) by (apply Z.pow_le_mono_r; lia). lia.
Qed.

(** Halving a quotient doubles the divisor. *)
Lemma half_div_mod (N D : Z) :
  0 < D → 0 ≤ N →
  N / (2 * D) = N / D / 2
  ∧ N mod (2 * D) = (N / D) mod 2 * D + N mod D.
Proof.
  intros HD HN.
  pose proof (Z.div_mod N D ltac:(lia)) as E.
  pose proof (Z.mod_pos_bound N D ltac:(lia)) as B.
  pose proof (Z.div_mod (N / D) 2 ltac:(lia)) as E2.
  pose proof (Z.mod_pos_bound (N / D) 2 ltac:(lia)) as B2.
  assert (N = 2 * D * (N / D / 2) + ((N / D) mod 2 * D + N mod D)) as EN by nia.
  assert (0 ≤ (N / D) mod 2 * D + N mod D < 2 * D) as BN by nia.
  symmetry in EN.
  destruct (Z.div_mod_unique (2 * D) (N / (2 * D)) (N / D / 2)
              (N mod (2 * D)) ((N / D) mod 2 * D + N mod D)) as [H1 H2];
    [left; apply Z.mod_pos_bound; lia | left; exact BN | | split; assumption].
  rewrite EN. symmetry. apply Z.div_mod. lia.
Qed.

(** One right shift of a record halves the fraction it stands for,
    keeping the round and sticky bits right. *)
Lemma shr_1_represents N D mrs :
  represents N D mrs → represents N (2 * D) (shr_1 mrs).
Proof.
  intros (HD & HN & Hm & Hr & Hs).
  destruct (half_div_mod N D HD HN) as [Ediv Emod].
  pose proof (Z.mod_pos_bound N D ltac:(lia)) as B.
  pose proof (Z.div_pos N D HN HD) as Hq.
  destruct mrs as [m r s]. simpl in Hm, Hr, Hs. subst m.
  unfold represents. rewrite Ediv, Emod.
  split; [lia|]. split; [exact HN|].
  set (rem := N mod D) in *.
  assert (r || s = negb (rem =? 0)) as Hrs.
  { rewrite Hr, Hs.
    destruct (Z.leb_spec D (2 * rem)); destruct (Z.eqb_spec rem 0);
      destruct (Z.eqb_spec (2 * rem) D); simpl; try reflexivity; lia. }
  unfold shr_1.
  destruct (N / D) as [|[p|p|]|p] eqn:Eq; try lia;
    cbn [shr_m shr_r shr_s]; rewrite Hrs.
  - (* 0 *) change (0 / 2) with 0. change (0 mod 2) with 0.
    split; [reflexivity|]. split.
    + symmetry. apply Z.leb_gt. lia.
    + destruct (Z.eqb_spec rem 0); destruct (Z.eqb_spec (0 * D + rem) 0);
        destruct (Z.eqb_spec (2 * (0 * D + rem)) (2 * D)); simpl; try reflexivity; lia.
  - (* p~1 *)
    assert (Zpos p~1 / 2 = Zpos p) as -> by (symmetry; apply Z.div_unique with 1; lia).
    assert (Zpos p~1 mod 2 = 1) as -> by (symmetry; apply Z.mod_unique with (Zpos p); lia).
    split; [reflexivity|]. split.
    + symmetry. apply Z.leb_le. lia.
    + destruct (Z.eqb_spec rem 0); destruct (Z.eqb_spec (1 * D + rem) 0);
        destruct (Z.eqb_spec (2 * (1 * D + rem)) (2 * D)); simpl; try reflexivity; lia.
  - (* p~0 *)
    assert (Zpos p~0 / 2 = Zpos p) as -> by (symmetry; apply Z.div_unique with 0; lia).
    assert (Zpos p~0 mod 2 = 0) as -> by (symmetry; apply Z.mod_unique with (Zpos p); lia).
    split; [reflexivity|]. split.
    + symmetry. apply Z.leb_gt. lia.
    + destruct (Z.eqb_spec rem 0); destruct (Z.eqb_spec (0 * D + rem) 0);
        destruct (Z.eqb_spec (2 * (0 * D + rem)) (2 * D)); simpl; try reflexivity; lia.
  - (* 1 *) change (1 / 2) with 0. change (1 mod 2) with 1.
    split; [reflexivity|]. split.
    + symmetry. apply Z.leb_le. lia.
    + destruct (Z.eqb_spec rem 0); destruct (Z.eqb_spec (1 * D + rem) 0);
        destruct (Z.eqb_spec (2 * (1 * D + rem)) (2 * D)); simpl; try reflexivity; lia.
Qed.

Lemma pow2_xO p : 2 ^ Zpos p~0 = 2 ^ Zpos p * 2 ^ Zpos p.
Proof.
  replace (Zpos p~0) with (Zpos p + Zpos p) by lia. apply Z.pow_add_r; lia.
Qed.

Lemma pow2_xI p : 2 ^ Zpos p~1 = 2 * (2 ^ Zpos p * 2 ^ Zpos p).
Proof.
  replace (Zpos p~1) with (Z.succ (Zpos p + Zpos p)) by lia.
  rewrite Z.pow_succ_r, Z.pow_add_r by lia. reflexivity.
Qed.

Lemma iter_pos_represents p N D mrs :
  represents N D mrs →
  represents N (2 ^ Zpos p * D) (SpecFloat.iter_pos shr_1 p mrs).
Proof.
  revert D mrs. induction p as [p IH|p IH|]; intros D mrs H;
    simpl SpecFloat.iter_pos.
  - apply shr_1_represents in H. apply IH in H. apply IH in H.
    replace (2 ^ Zpos p~1 * D) with (2 ^ Zpos p * (2 ^ Zpos p * (2 * D)));
      [exact H|]. rewrite pow2_xI. ring.
  - apply IH in H. apply IH in H.
    replace (2 ^ Zpos p~0 * D) with (2 ^ Zpos p * (2 ^ Zpos p * D));
      [exact H|]. rewrite pow2_xO. ring.
  - apply shr_1_represents in H. exact H.
Qed.

(** The location a record yields is the position of the fraction
    between its floor and the next integer. *)
Lemma represents_loc N D mrs :
  represents N D mrs → loc_of_shr_record mrs = loc_of N D.
Proof.
  intros (HD & HN & Hm & Hr & Hs). destruct mrs as [m r s].
  simpl in Hr, Hs. subst r s. unfold loc_of, loc_of_shr_record.
  pose proof (Z.mod_pos_bound N D ltac:(lia)) as B.
  destruct (Z.eqb_spec (N mod D) 0) as [E|E].
  - rewrite E. rewrite Z.mul_0_r. simpl.
    destruct (Z.leb_spec D 0); [lia | reflexivity].
  - simpl. destruct (Z.compare_spec (2 * (N mod D)) D) as [C|C|C].
    + rewrite C, Z.leb_refl, Z.eqb_refl. reflexivity.
    + destruct (Z.leb_spec D (2 * (N mod D))); [lia|].
      destruct (Z.eqb_spec (2 * (N mod D)) D); [lia | reflexivity].
    + destruct (Z.leb_spec D (2 * (N mod D))); [|lia].
      destruct (Z.eqb_spec (2 * (N mod D)) D); [lia | reflexivity].
Qed.

Lemma record_of_loc_represents N D :
  0 < D → 0 ≤ N → represents N D (shr_record_of_loc (N / D) (loc_of N D)).
Proof.
  intros HD HN. unfold represents, loc_of.
  pose proof (Z.mod_pos_bound N D ltac:(lia)) as B.
  split; [exact HD|]. split; [exact HN|].
  destruct (Z.eqb_spec (N mod D) 0) as [E|E].
  - rewrite E. rewrite Z.mul_0_r. simpl. destruct (Z.leb_spec D 0); [lia|].
    split; [reflexivity|]. split; reflexivity.
  - destruct (Z.compare_spec (2 * (N mod D)) D) as [C|C|C]; simpl.
    + rewrite C, Z.leb_refl, Z.eqb_refl. repeat split.
    + destruct (Z.leb_spec D (2 * (N mod D))); [lia|].
      destruct (Z.eqb_spec (2 * (N mod D)) D); [lia|]. repeat split.
    + destruct (Z.leb_spec D (2 * (N mod D))); [|lia].
      destruct (Z.eqb_spec (2 * (N mod D)) D); [lia|]. repeat split.
Qed.

(** Rounding to nearest even gives an integer within one half of the
    fraction. *)
Lemma rne_spec N D :
  0 < D →
  N / D ≤ rne N D ≤ N / D + 1 ∧ - D ≤ 2 * (rne N D * D - N) ≤ D.
Proof.
  intros HD. unfold rne, loc_of, round_nearest_even.
  pose proof (Z.div_mod N D ltac:(lia)) as E.
  pose proof (Z.mod_pos_bound N D ltac:(lia)) as B.
  destruct (Z.eqb_spec (N mod D) 0) as [E0|E0]; [nia|].
  destruct (Z.compare_spec (2 * (N mod D)) D) as [C|C|C].
  - destruct (Z.even (N / D)); nia.
  - nia.
  - nia.
Qed.

(** The shift that brings a mantissa of more than 53 bits down to 53. *)
Lemma shr_fexp_represents N D ex :
  0 < D → 0 ≤ N →
  let k := Zdigits2 (N / D) - 53 in
  0 ≤ k → -1074 ≤ ex + k →
  ∃ mrs, shr_fexp 53 1024 (N / D) ex (loc_of N D) = (mrs, ex + k)
         ∧ represents N (2 ^ k * D) mrs.
Proof.
  intros HD HN k Hk He. unfold shr_fexp, fexp, emin.
  replace (Z.sub (Z.max (Z.sub (Z.add (Zdigits2 (N / D)) ex) 53)
                        (Z.sub (Z.sub 3 1024) 53)) ex) with k by lia.
  pose proof (record_of_loc_represents N D HD HN) as Hrep.
  destruct k as [|p|p] eqn:Ek; [| |lia].
  - exists (shr_record_of_loc (N / D) (loc_of N D)). simpl shr.
    split; [f_equal; lia|]. rewrite Z.pow_0_r, Z.mul_1_l. exact Hrep.
  - eexists. simpl shr. split; [reflexivity|].
    apply iter_pos_represents. exact Hrep.
Qed.

Lemma shifted_mantissa (mx k : Z) :
  0 < mx → 0 ≤ k → Zdigits2 mx = 53 + k →
  2 ^ 52 ≤ mx / 2 ^ k < 2 ^ 53.
Proof.
  intros Hm Hk Hd. destruct mx as [|p|p]; try lia.
  pose proof (digits2_pos_spec p) as [Hl Hh]. simpl in Hd.
  rewrite Hd in Hl, Hh.
  replace (53 + k - 1) with (52 + k) in Hl by lia.
  rewrite Z.pow_add_r in Hl, Hh by lia.
  assert (0 < 2 ^ k) by (apply Z.pow_pos_nonneg; lia).
  split.
  - apply Z.div_le_lower_bound; lia.
  - apply Z.div_lt_upper_bound; lia.
Qed.

(** Rounding a mantissa of at least 53 bits in the normal range: the
    result is the nearest-even rounding of the shifted fraction, with a
    mantissa of exactly 53 bits. *)
Lemma binary_round_aux_spec N D ex :
  0 < D → 0 ≤ N →
  let k := Zdigits2 (N / D) - 53 in
  0 ≤ k → -1074 ≤ ex + k → ex + k + 1 ≤ 971 →
  ∃ m k2,
    binary_round_aux 53 1024 false (N / D) ex (loc_of N D)
    = S754_finite false m (ex + k + k2)
    ∧ (k2 = 0 ∨ k2 = 1)
    ∧ Zpos m * 2 ^ k2 = rne N (2 ^ k * D)
    ∧ 2 ^ 52 ≤ Zpos m < 2 ^ 53.
Proof.
  intros HD HN k Hk Hlo Hhi.
  assert (0 < 2 ^ k) as Hpk by (apply Z.pow_pos_nonneg; lia).
  destruct (shr_fexp_represents N D ex HD HN Hk Hlo) as (mrs & Hshr & Hrep).
  fold k in Hshr, Hrep.
  unfold binary_round_aux. rewrite Hshr.
  rewrite (represents_loc _ _ _ Hrep).
  destruct Hrep as (_ & _ & Hm & _). rewrite Hm. fold (rne N (2 ^ k * D)).
  set (m1 := rne N (2 ^ k * D)).
  assert (0 < N / D) as Hmx.
  { destruct (N / D) as [|p|p] eqn:E; [|lia|].
    - subst k. simpl in Hk. lia.
    - pose proof (Z.div_pos N D HN HD). lia. }
  assert (2 ^ 52 ≤ N / (2 ^ k * D) < 2 ^ 53) as Hfloor.
  { rewrite Z.mul_comm, <- Z.div_div by lia.
    apply shifted_mantissa; [exact Hmx|exact Hk|]. subst k. lia. }
  destruct (rne_spec N (2 ^ k * D) ltac:(lia)) as [Hm1 _]. fold m1 in Hm1.
  assert (2 ^ 52 ≤ m1 ≤ 2 ^ 53) as Hm1b by lia.
  assert (loc_Exact = loc_of m1 1) as HlE
    by (unfold loc_of; rewrite Z.mod_1_r; reflexivity).
  rewrite HlE.
  replace (shr_fexp 53 1024 m1 (ex + k) (loc_of m1 1))
    with (shr_fexp 53 1024 (m1 / 1) (ex + k) (loc_of m1 1))
    by (rewrite Z.div_1_r; reflexivity).
  destruct (Z.eq_dec m1 (2 ^ 53)) as [E53|N53].
  - assert (Zdigits2 (m1 / 1) = 54) as Hd2
      by (rewrite Z.div_1_r, E53; reflexivity).
    destruct (shr_fexp_represents m1 1 (ex + k) ltac:(lia) ltac:(lia))
      as (mrs2 & Hshr2 & Hrep2); rewrite ?Hd2; try lia.
    rewrite Hd2 in Hshr2, Hrep2. rewrite Hshr2.
    destruct Hrep2 as (_ & _ & Hm2 & _). rewrite Hm2, E53.
    change (2 ^ 53 / (2 ^ (54 - 53) * 1)) with (Zpos (Z.to_pos (2 ^ 52))).
    replace (ex + k + (54 - 53) <=? 1024 - 53) with true
      by (symmetry; apply Z.leb_le; lia).
    exists (Z.to_pos (2 ^ 52)), 1. repeat split; try reflexivity; try lia.
  - assert (Zdigits2 (m1 / 1) = 53) as Hd2.
    { rewrite Z.div_1_r. apply digits_unique; lia. }
    destruct (shr_fexp_represents m1 1 (ex + k) ltac:(lia) ltac:(lia))
      as (mrs2 & Hshr2 & Hrep2); rewrite ?Hd2; try lia.
    rewrite Hd2 in Hshr2, Hrep2. rewrite Hshr2.
    destruct Hrep2 as (_ & _ & Hm2 & _). rewrite Hm2.
    change (2 ^ (53 - 53) * 1) with 1. rewrite Z.div_1_r.
    destruct m1 as [|p|p] eqn:Em1; try lia.
    replace (ex + k + (53 - 53) <=? 1024 - 53) with true
      by (symmetry; apply Z.leb_le; lia).
    exists p, 0. split; [f_equal; lia|]. split; [left; reflexivity|].
    split; [lia | lia].
Qed.

Lemma two_nonzero : ¬ (2 == 0)%Q.
Proof. intros H. discriminate H. Qed.

Lemma pow2_pos (e : Z) : (0 < 2 ^ e)%Q.
Proof. apply Qpower_0_lt. reflexivity. Qed.

Lemma pow2_inject (k : Z) : 0 ≤ k → (inject_Z (2 ^ k) == 2 ^ k)%Q.
Proof. intros Hk. apply (Zpower_Qpower 2 k Hk). Qed.

Lemma digits_lower (mx : Z) :
  0 < mx → 2 ^ (Zdigits2 mx - 1) ≤ mx.
Proof.
  intros H. destruct mx as [|p|p]; try lia. simpl.
  apply digits2_pos_spec.
Qed.

(** Rounding to binary64: the result is within a relative error of
    [eps] of the value rounded. *)
Lemma binary_round_aux_Q (N D ex : Z) :
  0 < D → 0 ≤ N →
  let k := Zdigits2 (N / D) - 53 in
  0 ≤ k → -1074 ≤ ex + k → ex + k + 1 ≤ 971 →
  ∃ m e,
    binary_round_aux 53 1024 false (N / D) ex (loc_of N D)
    = S754_finite false m e
    ∧ 2 ^ 52 ≤ Zpos m < 2 ^ 53
    ∧ ex + k ≤ e ≤ ex + k + 1
    ∧ (let x := (inject_Z N / inject_Z D * 2 ^ ex)%Q in
       x * (1 - eps) <= val (Zpos m) e ∧ val (Zpos m) e <= x * (1 + eps))%Q.
Proof.
  intros HD HN k Hk Hlo Hhi.
  destruct (binary_round_aux_spec N D ex HD HN Hk Hlo Hhi)
    as (m & k2 & Hres & Hk2 & HmR & Hmb). fold k in Hres, HmR.
  exists m, (ex + k + k2). split; [exact Hres|]. split; [exact Hmb|].
  split; [lia|].
  assert (0 < 2 ^ k) as Hpk by (apply Z.pow_pos_nonneg; lia).
  destruct (rne_spec N (2 ^ k * D) ltac:(lia)) as [_ [HR1 HR2]].
  rewrite <- HmR in HR1, HR2.
  assert (0 < N / D) as Hmx.
  { destruct (N / D) as [|p|p] eqn:E; [|lia|].
    - subst k. simpl in Hk. lia.
    - pose proof (Z.div_pos N D HN HD). lia. }
  pose proof (digits_lower (N / D) Hmx) as Hdl.
  replace (Zdigits2 (N / D) - 1) with (52 + k) in Hdl by (subst k; lia).
  rewrite Z.pow_add_r in Hdl by lia.
  pose proof (Z.mul_div_le N D HD) as Hfl.
  assert (2 ^ 52 * 2 ^ k * D ≤ N) as HB by nia.
  set (Nq := inject_Z N). set (Dq := inject_Z D).
  set (T := inject_Z (2 ^ k)). set (W := inject_Z (Zpos m * 2 ^ k2)).
  assert (0 < Dq)%Q as HDq by (unfold Dq; change 0%Q with (inject_Z 0); rewrite <- Zlt_Qlt; exact HD).
  assert (0 < T)%Q as HT by (unfold T; change 0%Q with (inject_Z 0); rewrite <- Zlt_Qlt; exact Hpk).
  set (u := (Nq / Dq)%Q).
  assert (u * Dq == Nq)%Q as Hu by (unfold u; field; lra).
  assert (- (T * Dq) <= 2 * (W * (T * Dq) - Nq))%Q as HA1.
  { rewrite Zle_Qle in HR1. unfold Z.sub in HR1.
    rewrite ?inject_Z_mult, ?inject_Z_plus, ?inject_Z_opp, ?inject_Z_mult
      in HR1.
    exact HR1. }
  assert (2 * (W * (T * Dq) - Nq) <= T * Dq)%Q as HA2.
  { rewrite Zle_Qle in HR2. unfold Z.sub in HR2.
    rewrite ?inject_Z_mult, ?inject_Z_plus, ?inject_Z_opp, ?inject_Z_mult
      in HR2.
    exact HR2. }
  assert (4503599627370496 * T * Dq <= Nq)%Q as HB'.
  { rewrite Zle_Qle in HB. rewrite !inject_Z_mult in HB. exact HB. }
  set (WT := (W * T)%Q).
  assert (2 * (WT - u) * Dq == 2 * (W * (T * Dq) - Nq))%Q as HE1
    by (rewrite <- Hu; unfold WT; ring).
  assert (- T <= 2 * (WT - u))%Q as HC1.
  { apply (Qmult_le_r _ _ Dq HDq). rewrite HE1.
    assert (- T * Dq == - (T * Dq))%Q as -> by ring. exact HA1. }
  assert (2 * (WT - u) <= T)%Q as HC2.
  { apply (Qmult_le_r _ _ Dq HDq). rewrite HE1. exact HA2. }
  assert (4503599627370496 * T <= u)%Q as HC3.
  { apply (Qmult_le_r _ _ Dq HDq). rewrite Hu. exact HB'. }
  assert (val (Zpos m) (ex + k + k2) == WT * 2 ^ ex)%Q as Hval.
  { unfold val, WT, W, T. rewrite inject_Z_mult.
    rewrite !Qpower_plus by apply two_nonzero.
    rewrite (pow2_inject k Hk), (pow2_inject k2 ltac:(lia)). ring. }
  cbv zeta. rewrite Hval. fold u.
  pose proof (pow2_pos ex) as HE.
  split.
  - assert (u * 2 ^ ex * (1 - eps) == u * (1 - eps) * 2 ^ ex)%Q as -> by ring.
    apply Qmult_le_compat_r; [|lra]. unfold eps. lra.
  - assert (u * 2 ^ ex * (1 + eps) == u * (1 + eps) * 2 ^ ex)%Q as -> by ring.
    apply Qmult_le_compat_r; [|lra]. unfold eps. lra.
Qed.

Lemma Pos_iter_xO (p j : positive) :
  Zpos (Pos.iter xO p j) = Zpos p * 2 ^ Zpos j.
Proof.
  induction j as [|j IH] using Pos.peano_ind.
  - simpl. lia.
  - rewrite Pos.iter_succ, Pos2Z.inj_xO, IH, Pos2Z.inj_succ.
    rewrite Z.pow_succ_r by lia. ring.
Qed.

Lemma rne_exact (n : Z) : rne n 1 = n.
Proof.
  destruct (rne_spec n 1 ltac:(lia)) as [_ H]. lia.
Qed.

Lemma loc_of_exact (n : Z) : loc_of n 1 = loc_Exact.
Proof. unfold loc_of. rewrite Z.mod_1_r. reflexivity. Qed.

Lemma val_scaled (n m e : Z) :
  e ≤ 0 → m = n * 2 ^ (- e) → (val m e == inject_Z n)%Q.
Proof.
  intros He ->. unfold val. rewrite inject_Z_mult, (pow2_inject (- e)) by lia.
  rewrite <- Qmult_assoc, <- Qpower_plus by apply two_nonzero.
  replace (- e + e) with 0 by lia. simpl. ring.
Qed.

(** Integers below 2^53 convert to binary64 exactly. *)
Lemma float_of_int_spec (n : Z) :
  0 < n < 2 ^ 53 →
  ∃ m e,
    float_of_int n = S754_finite false m e
    ∧ 2 ^ 52 ≤ Zpos m < 2 ^ 53
    ∧ -52 ≤ e ≤ 0
    ∧ (val (Zpos m) e == inject_Z n)%Q.
Proof.
  intros Hn. destruct n as [|p|p]; try lia.
  pose proof (digits2_pos_spec p) as [Hl Hh].
  set (d := Zpos (digits2_pos p)) in *.
  assert (1 ≤ d ≤ 53) as Hd.
  { split; [subst d; lia|].
    destruct (Z.le_gt_cases d 53) as [H|H]; [exact H|].
    assert (2 ^ 53 ≤ 2 ^ (d - 1)) by (apply Z.pow_le_mono_r; lia). lia. }
  set (j := 53 - d).
  assert (∃ mz, shl_align p 0 (fexp 53 1024 (Z.add d 0)) = (mz, - j)
                ∧ Zpos mz = Zpos p * 2 ^ j) as (mz & Hsh & Hmz).
  { unfold shl_align, fexp, emin.
    replace (Z.sub (Z.max (Z.sub (Z.add d 0) 53) (Z.sub (Z.sub 3 1024) 53)) 0)
      with (- j) by (subst j; lia).
    replace (Z.max (Z.sub (Z.add d 0) 53) (Z.sub (Z.sub 3 1024) 53))
      with (- j) by (subst j; lia).
    destruct j as [|q|q] eqn:Ej; [| |lia].
    - exists p. simpl. split; [reflexivity | lia].
    - exists (Pos.iter xO p q). simpl Z.opp. cbv iota beta.
      split; [reflexivity | apply Pos_iter_xO]. }
  assert (0 < 2 ^ j) as Hpj by (apply Z.pow_pos_nonneg; subst j; lia).
  assert (2 ^ 52 ≤ Zpos mz < 2 ^ 53) as Hmzb.
  { rewrite Hmz. replace 52 with (d - 1 + j) by (subst j; lia).
    replace 53 with (d + j) by (subst j; lia).
    rewrite !Z.pow_add_r by (subst j; lia). nia. }
  assert (Zdigits2 (Zpos mz / 1) = 53) as Hdig
    by (rewrite Z.div_1_r; apply digits_unique; simpl; lia).
  destruct (binary_round_aux_spec (Zpos mz) 1 (- j) ltac:(lia) ltac:(lia))
    as (m & k2 & Hres & Hk2 & HmR & Hmb); rewrite ?Hdig; try (subst j; lia).
  rewrite Hdig, Z.div_1_r, loc_of_exact in Hres.
  rewrite Hdig in HmR. change (2 ^ (53 - 53) * 1) with 1 in HmR.
  rewrite rne_exact in HmR.
  assert (k2 = 0) as -> by (destruct Hk2 as [->| ->]; [reflexivity | lia]).
  rewrite Z.pow_0_r, Z.mul_1_r in HmR.
  exists m, (- j).
  unfold float_of_int, binary_normalize, binary_round, prec, emax.
  fold d. rewrite Hsh.
  replace (- j + (53 - 53) + 0) with (- j) in Hres by lia.
  split; [exact Hres|]. split; [exact Hmb|]. split; [subst j; lia|].
  apply val_scaled; [subst j; lia|]. rewrite HmR, Hmz.
  replace (- - j) with j by lia. reflexivity.
Qed.

(** The location of a remainder [r] of a division by [nb]. *)
Lemma new_location_spec (nb r : Z) :
  0 < nb → 0 ≤ r < nb →
  new_location nb r
  = if r =? 0 then loc_Exact else loc_Inexact (2 * r ?= nb).
Proof.
  intros Hnb Hr. unfold new_location, new_location_even, new_location_odd.
  destruct (Z.even nb) eqn:Ev; [reflexivity|].
  destruct (Z.eqb_spec r 0); [reflexivity|]. f_equal.
  assert (Z.odd nb = true) as Ho by (rewrite <- Z.negb_even, Ev; reflexivity).
  apply Z.odd_spec in Ho as [c Hc].
  destruct (Z.compare_spec (2 * r + 1) nb);
    destruct (Z.compare_spec (2 * r) nb); try reflexivity; lia.
Qed.

(** The division of two 53-bit mantissas: the dividend is shifted by 53
    bits before the integer division. *)
Lemma SFdiv_core_spec (ma mb : positive) (ea eb : Z) :
  2 ^ 52 ≤ Zpos ma < 2 ^ 53 → 2 ^ 52 ≤ Zpos mb < 2 ^ 53 →
  -52 ≤ ea ≤ 0 → -52 ≤ eb ≤ 0 →
  SFdiv_core_binary 53 1024 (Zpos ma) ea (Zpos mb) eb
  = (Zpos ma * 2 ^ 53 / Zpos mb, ea - eb - 53,
     loc_of (Zpos ma * 2 ^ 53) (Zpos mb)).
Proof.
  intros Ha Hb Hea Heb. unfold SFdiv_core_binary.
  rewrite (digits_unique (Zpos ma) 53), (digits_unique (Zpos mb) 53)
    by (simpl; lia).
  replace (Z.min (fexp 53 1024 (Z.sub (Z.add 53 ea) (Z.add 53 eb)))
                 (Z.sub ea eb)) with (ea - eb - 53)
    by (unfold fexp, emin; lia).
  replace (Z.sub (Z.sub ea eb) (ea - eb - 53)) with 53 by lia.
  rewrite Z.shiftl_mul_pow2 by lia.
  unfold loc_of, Z.div, Z.modulo.
  pose proof (Z.mod_pos_bound (Zpos ma * 2 ^ 53) (Zpos mb) ltac:(lia)) as B.
  unfold Z.modulo in B.
  destruct (Z.div_eucl (Zpos ma * 2 ^ 53) (Zpos mb)) as [q r].
  rewrite new_location_spec by lia. reflexivity.
Qed.

(** The quotient of two integers below 2^53 is their exact quotient up to
    a relative error of [eps]. *)
Lemma truediv_Q (a b : Z) :
  0 < a < 2 ^ 53 → 0 < b < 2 ^ 53 →
  ∃ m e,
    truediv a b = S754_finite false m e
    ∧ 2 ^ 52 ≤ Zpos m < 2 ^ 53
    ∧ -105 ≤ e ≤ 54
    ∧ (let x := (inject_Z a / inject_Z b)%Q in
       x * (1 - eps) <= val (Zpos m) e ∧ val (Zpos m) e <= x * (1 + eps))%Q.
Proof.
  intros Ha Hb.
  destruct (float_of_int_spec a Ha) as (ma & ea & Hfa & Hma & Hea & Hva).
  destruct (float_of_int_spec b Hb) as (mb & eb & Hfb & Hmb & Heb & Hvb).
  unfold truediv. rewrite Hfa, Hfb. unfold SFdiv, prec, emax.
  rewrite SFdiv_core_spec by assumption.
  set (N := Zpos ma * 2 ^ 53). set (D := Zpos mb).
  assert (2 ^ 52 ≤ N / D < 2 ^ 54) as Hq.
  { subst N D. split.
    - apply Z.div_le_lower_bound; [lia|].
      change (2 ^ 53) with (2 * 2 ^ 52). nia.
    - apply Z.div_lt_upper_bound; [lia|].
      change (2 ^ 54) with (2 ^ 53 * 2). change (2 ^ 53) with (2 * 2 ^ 52).
      nia. }
  assert (53 ≤ Zdigits2 (N / D) ≤ 54) as Hdig.
  { destruct (N / D) as [|q|q] eqn:Eq; try lia. simpl.
    pose proof (digits2_pos_spec q) as [Hl Hh].
    set (d := Zpos (digits2_pos q)) in *. split.
    - destruct (Z.le_gt_cases 53 d) as [H|H]; [exact H|].
      assert (2 ^ d ≤ 2 ^ 52) by (apply Z.pow_le_mono_r; lia). lia.
    - destruct (Z.le_gt_cases d 54) as [H|H]; [exact H|].
      assert (2 ^ 54 ≤ 2 ^ (d - 1)) by (apply Z.pow_le_mono_r; lia). lia. }
  destruct (binary_round_aux_Q N D (ea - eb - 53))
    as (m & e & Hres & Hmr & He & Hx1 & Hx2); try lia.
  exists m, e. change (xorb false false) with false.
  split; [exact Hres|]. split; [exact Hmr|]. split; [lia|].
  assert (inject_Z N / inject_Z D * 2 ^ (ea - eb - 53)
          == inject_Z a / inject_Z b)%Q as Hx.
  { rewrite <- Hva, <- Hvb. unfold val, N, D.
    rewrite inject_Z_mult, (pow2_inject 53) by lia.
    replace (ea - eb - 53) with (ea + (- eb + - 53)) by lia.
    rewrite !Qpower_plus by apply two_nonzero.
    rewrite (Qpower_opp 2 eb), (Qpower_opp 2 53).
    pose proof (pow2_pos ea) as Hpa. pose proof (pow2_pos eb) as Hpb.
    pose proof (pow2_pos 53) as Hp53.
    assert (0 < inject_Z (Zpos mb))%Q as Hmbq
      by (change 0%Q with (inject_Z 0); rewrite <- Zlt_Qlt; lia).
    revert Hpa Hpb Hp53 Hmbq.
    generalize (2 ^ ea)%Q (2 ^ eb)%Q (2 ^ 53)%Q (inject_Z (Zpos ma))
               (inject_Z (Zpos mb)).
    intros Pa Pb P A B Hpa Hpb Hp53 Hmbq. field. repeat split; lra. }
  cbv zeta in Hx1, Hx2 |- *. rewrite Hx in Hx1, Hx2.
  split; assumption.
Qed.

Lemma float_100 : float_of_int 100 = S754_finite false 7036874417766400 (-46).
Proof. vm_compute. reflexivity. Qed.

(** The product of a binary64 number and 100 is their exact product up to
    a relative error of [eps]. *)
Lemma fmul_100_Q (m : positive) (e : Z) :
  2 ^ 52 ≤ Zpos m < 2 ^ 53 → -200 ≤ e ≤ 200 →
  ∃ m' e',
    fmul_int (S754_finite false m e) 100 = S754_finite false m' e'
    ∧ (let x := (val (Zpos m) e * 100)%Q in
       x * (1 - eps) <= val (Zpos m') e' ∧ val (Zpos m') e' <= x * (1 + eps))%Q.
Proof.
  intros Hm He. unfold fmul_int. rewrite float_100. unfold SFmul, prec, emax.
  change (xorb false false) with false.
  set (N := Zpos (m * 7036874417766400)).
  assert (N = Zpos m * 7036874417766400) as HN by (subst N; lia).
  assert (2 ^ 104 ≤ N < 2 ^ 106) as HNb.
  { rewrite HN. change (2 ^ 104) with (2 ^ 52 * 2 ^ 52).
    change (2 ^ 106) with (2 ^ 53 * 2 ^ 53). nia. }
  assert (105 ≤ Zdigits2 (N / 1) ≤ 106) as Hdig.
  { rewrite Z.div_1_r. subst N. simpl Zdigits2.
    pose proof (digits2_pos_spec (m * 7036874417766400)) as [Hl Hh].
    set (d := Zpos (digits2_pos (m * 7036874417766400))) in *. split.
    - destruct (Z.le_gt_cases 105 d) as [H|H]; [exact H|].
      assert (2 ^ d ≤ 2 ^ 104) by (apply Z.pow_le_mono_r; lia). lia.
    - destruct (Z.le_gt_cases d 106) as [H|H]; [exact H|].
      assert (2 ^ 106 ≤ 2 ^ (d - 1)) by (apply Z.pow_le_mono_r; lia). lia. }
  destruct (binary_round_aux_Q N 1 (e + -46))
    as (m' & e' & Hres & _ & _ & Hx1 & Hx2); try lia.
  rewrite Z.div_1_r, loc_of_exact in Hres.
  exists m', e'. split; [exact Hres|].
  assert (inject_Z N / inject_Z 1 * 2 ^ (e + -46) == val (Zpos m) e * 100)%Q
    as Hx.
  { rewrite HN. unfold val. rewrite inject_Z_mult.
    rewrite Qpower_plus by apply two_nonzero.
    assert (inject_Z 7036874417766400 * 2 ^ (-46) == 100)%Q as H100
      by (vm_compute; reflexivity).
    rewrite <- H100. change (inject_Z 1) with 1%Q.
    generalize (2 ^ e)%Q (2 ^ (-46))%Q (inject_Z (Zpos m))
               (inject_Z 7036874417766400).
    intros Pe P46 A M. field. }
  cbv zeta in Hx1, Hx2 |- *. rewrite Hx in Hx1, Hx2.
  split; assumption.
Qed.

(** The rational value of a finite positive float. *)
Lemma float_value_val (m : positive) (e : Z) :
  ∃ q, float_value (S754_finite false m e) = Some q
       ∧ (q == val (Zpos m) e)%Q.
Proof.
  unfold float_value, val. destruct (Z.leb_spec 0 e) as [He|He].
  - eexists. split; [reflexivity|].
    rewrite inject_Z_mult, (pow2_inject e He). reflexivity.
  - eexists. split; [reflexivity|].
    assert (0 < 2 ^ (- e)) as Hp by (apply Z.pow_pos_nonneg; lia).
    rewrite Qmake_Qdiv, Z2Pos.id by exact Hp.
    rewrite (pow2_inject (- e)) by lia.
    assert (2 ^ e == / 2 ^ (- e))%Q as ->.
    { rewrite <- Qpower_opp. replace (- - e) with e by lia. reflexivity. }
    reflexivity.
Qed.

(** [round] returns an integer within one half of its argument. *)
Lemma round_half_Z (n : Z) (d : positive) :
  - Zpos d ≤ 2 * (round (n # d) * Zpos d - n) ≤ Zpos d.
Proof.
  unfold round. cbn [Qnum Qden].
  pose proof (Z.div_mod n (Zpos d) ltac:(lia)) as E.
  pose proof (Z.mod_pos_bound n (Zpos d) ltac:(lia)) as B.
  set (q := n / Zpos d) in *. set (r := n mod Zpos d) in *.
  destruct (Z.compare_spec (2 * r) (Zpos d)) as [C|C|C].
  - destruct (Z.even q); nia.
  - nia.
  - nia.
Qed.

Lemma round_half (q : Q) :
  (inject_Z (round q) - q <= 1 # 2 ∧ - (1 # 2) <= inject_Z (round q) - q)%Q.
Proof.
  destruct q as [n d]. pose proof (round_half_Z n d) as H.
  revert H. generalize (round (n # d)). intros z Hz.
  unfold Qle, Qminus, Qplus, Qopp, inject_Z. simpl.
  rewrite ?Pos2Z.inj_mul. lia.
Qed.

(** Two integers within one half of the same fraction are equal unless
    the fraction lies exactly halfway between two integers. *)
Lemma nearest_unique (n d p r : Z) :
  0 < d →
  - d ≤ 2 * (p * d - n) ≤ d →
  - d ≤ 2 * (r * d - n) ≤ d →
  (2 * n) mod (2 * d) ≠ d →
  p = r.
Proof.
  intros Hd Hp Hr Hodd.
  destruct (Z.lt_trichotomy p r) as [Hlt|[Heq|Hgt]]; [|exact Heq|].
  - exfalso. apply Hodd.
    assert (r = p + 1) as -> by nia.
    assert (2 * n = d + p * (2 * d)) as -> by nia.
    rewrite Z.mod_add by lia. apply Z.mod_small. lia.
  - exfalso. apply Hodd.
    assert (p = r + 1) as -> by nia.
    assert (2 * n = d + r * (2 * d)) as -> by nia.
    rewrite Z.mod_add by lia. apply Z.mod_small. lia.
Qed.

(** The percentage [basic_update] computes in binary64 is a nearest
    integer to the exact percentage of used memory. *)
Lemma ram_usage_nearest (tot avail : Z) :
  0 ≤ avail ≤ tot → 0 < tot < 2 ^ 44 →
  ∃ p, ram_usage_of (mk_svmem tot avail) = Some p
       ∧ 0 ≤ p ≤ 100
       ∧ - tot ≤ 2 * (p * tot - 100 * (tot - avail)) ≤ tot.
Proof.
  intros Hav Htot. unfold ram_usage_of. cbn [total available].
  destruct (Z.eq_dec avail tot) as [->|Hne].
  - exists 0. rewrite Z.sub_diag.
    destruct (float_of_int_spec tot) as (mb & eb & Hfb & _);
      [change (2 ^ 53) with (2 ^ 44 * 512); lia|].
    unfold truediv. rewrite Hfb. split; [reflexivity | lia].
  - set (a := tot - avail). set (b := tot).
    assert (0 < a ≤ b) as Hab by (subst a b; lia).
    assert (b < 2 ^ 53) as Hb53 by (subst b; change (2 ^ 53) with (2 ^ 44 * 512); lia).
    destruct (truediv_Q a b ltac:(lia) ltac:(lia))
      as (m1 & e1 & Hdiv & Hm1 & He1 & Hx1lo & Hx1hi).
    destruct (fmul_100_Q m1 e1 Hm1 ltac:(lia))
      as (m2 & e2 & Hmul & Hy1lo & Hy1hi).
    destruct (float_value_val m2 e2) as (q & Hq & Hqv).
    rewrite Hdiv, Hmul. unfold round_float. rewrite Hq.
    exists (round q). split; [reflexivity|].
    destruct (round_half q) as [Hr1 Hr2].
    set (P := inject_Z (round q)) in *.
    rewrite Hqv in Hr1, Hr2. cbv zeta in *.
    set (A := inject_Z a) in *. set (B := inject_Z b) in *.
    assert (0 < A)%Q as HA
      by (unfold A; change 0%Q with (inject_Z 0); rewrite <- Zlt_Qlt; lia).
    assert (A <= B)%Q as HAB by (unfold A, B; rewrite <- Zle_Qle; lia).
    assert (B < 17592186044416)%Q as HB44.
    { unfold B. change 17592186044416%Q with (inject_Z (2 ^ 44)).
      rewrite <- Zlt_Qlt. subst b. lia. }
    set (X := (A / B)%Q) in *.
    assert (X * B == A)%Q as HXB by (unfold X; field; lra).
    assert (0 < X)%Q as HX0.
    { apply (Qmult_lt_r _ _ B); [lra|]. rewrite HXB. lra. }
    assert (X <= 1)%Q as HX1.
    { apply (Qmult_le_r _ _ B); [lra|]. rewrite HXB. lra. }
    revert Hx1lo Hx1hi Hy1lo Hy1hi Hr1 Hr2.
    generalize (val (Zpos m1) e1) (val (Zpos m2) e2). intros x1 y1.
    unfold eps. intros Hx1lo Hx1hi Hy1lo Hy1hi Hr1 Hr2.
    assert (P - 100 * X <= (1 # 2) + (1 # 35184372088832))%Q as HP1 by lra.
    assert (- ((1 # 2) + (1 # 35184372088832)) <= P - 100 * X)%Q as HP2 by lra.
    assert ((P - 100 * X) * B == P * B - 100 * A)%Q as HE
      by (rewrite <- HXB; ring).
    assert (P * B - 100 * A <= ((1 # 2) + (1 # 35184372088832)) * B)%Q as HQ1.
    { rewrite <- HE. apply Qmult_le_compat_r; lra. }
    assert (- ((1 # 2) + (1 # 35184372088832)) * B <= P * B - 100 * A)%Q as HQ2.
    { rewrite <- HE. apply Qmult_le_compat_r; lra. }
    assert (2 * (round q * b - 100 * a) < b + 1) as HZ1.
    { rewrite Zlt_Qlt. unfold Z.sub.
      repeat (rewrite inject_Z_plus || rewrite inject_Z_mult
              || rewrite inject_Z_opp).
      fold A B P. change (inject_Z 2) with 2%Q.
      change (inject_Z 100) with 100%Q. change (inject_Z 1) with 1%Q.
      revert HQ1 HQ2. generalize (P * B)%Q. intros PB HQ1 HQ2. lra. }
    assert (- b - 1 < 2 * (round q * b - 100 * a)) as HZ2.
    { rewrite Zlt_Qlt. unfold Z.sub.
      repeat (rewrite inject_Z_plus || rewrite inject_Z_mult
              || rewrite inject_Z_opp).
      fold A B P. change (inject_Z 2) with 2%Q.
      change (inject_Z 100) with 100%Q. change (inject_Z 1) with 1%Q.
      revert HQ1 HQ2. generalize (P * B)%Q. intros PB HQ1 HQ2. lra. }
    subst a b. split; [nia | lia].
Qed.

(** C9: for a snapshot with [0 <= available <= total] and a total below
    2^44, [basic_update] pushes the aggregate CPU sample to the CPU graph
    and then pushes to the RAM graph the integer
    [round((total - available) / total * 100)], computed in binary64 as
    in the source.  That integer lies between 0 and 100 and is within
    one half of the exact percentage of used memory; unless the exact
    percentage lies halfway between two integers, it is the exact
    percentage rounded.  The RAM graph then displays it. *)
Theorem C9_ram_percentage (cpu_graph ram_graph : BarGraph) (cpu_usage : Q)
    (mem_stats : svmem) (w : window) :
  wf ram_graph → in_range cpu_usage = true →
  0 ≤ available mem_stats ≤ total mem_stats →
  0 < total mem_stats < 2 ^ 44 →
  ∃ (ram_usage : Z) (w' : window),
    ram_usage_of mem_stats = Some ram_usage
    ∧ 0 ≤ ram_usage ≤ 100
    ∧ 2 * Z.abs (ram_usage * total mem_stats
                 - 100 * (total mem_stats - available mem_stats))
      ≤ total mem_stats
    ∧ ((200 * (total mem_stats - available mem_stats))
         mod (2 * total mem_stats) ≠ total mem_stats →
       ram_usage = percent_rounded mem_stats)
    ∧ basic_update cpu_graph ram_graph cpu_usage mem_stats w = Returned () w'
    ∧ (call cpu_graph cpu_usage ;; call ram_graph (inject_Z ram_usage)) w
      = Returned () w'
    ∧ shown w' (pointer_y ram_graph) (pointer_x ram_graph) 25
      = Some <$> pointer_row (ram_usage / 5) ram_usage
    ∧ shown w' (bar_y ram_graph) (bar_x ram_graph) 19
      = Some <$> bar_row ram_usage.
Proof.
  intros Hwf Hcpu Hav Htot. destruct mem_stats as [t a].
  cbn [total available] in *.
  destruct (ram_usage_nearest t a Hav Htot) as (p & Hram & Hr & Hnear).
  assert (in_range (inject_Z p) = true) as Hin
    by (apply in_range_inject; exact Hr).
  exists p. eexists.
  split; [exact Hram|]. split; [exact Hr|]. split; [lia|].
  split.
  { intros Hodd. unfold percent_rounded. cbn [total available].
    apply (nearest_unique (100 * (t - a)) t); [lia|exact Hnear| |].
    - pose proof (round_half_Z (100 * (t - a)) (Z.to_pos t)) as H.
      rewrite Z2Pos.id in H by lia. exact H.
    - replace (2 * (100 * (t - a))) with (200 * (t - a)) by lia. exact Hodd. }
  unfold basic_update. rewrite Hram. cbn [total].
  rewrite decide_False by lia.
  unfold mbind, M_bind, mret, M_ret.
  rewrite (call_ok cpu_graph cpu_usage w Hcpu).
  rewrite call_ok by exact Hin.
  split; [reflexivity|]. split; [reflexivity|].
  unfold shown. cbn [screen]. rewrite round_inject.
  split; [apply painted_pointer_row | apply painted_bar_row]; assumption.
Qed.

Lemma C9_ram_percentage_witness :
  ∃ w',
    ram_usage_of (mk_svmem 16 5) = Some 69
    ∧ basic_update (new_graph 1 3 (lit "CPU")) (new_graph 1 34 (lit "RAM"))
                   (25 # 2) (mk_svmem 16 5) (Window ∅ (0, 0) ∅)
      = Returned () w'
    ∧ shown w' 2 39 19 = Some <$> bar_row 69.
Proof.
  destruct (C9_ram_percentage (new_graph 1 3 (lit "CPU"))
              (new_graph 1 34 (lit "RAM")) (25 # 2) (mk_svmem 16 5)
              (Window ∅ (0, 0) ∅))
    as (p & w' & Hp & _ & _ & Hround & Hu & _ & _ & Hb).
  - apply new_graph_wf.
  - reflexivity.
  - simpl. lia.
  - simpl. lia.
  - assert (p = 69) as -> by (apply Hround; vm_compute; discriminate).
    exists w'. split; [exact Hp|]. split; [exact Hu | exact Hb].
Defined.

(** C9 read in exact arithmetic fails: the integer pushed is not always
    the exact percentage rounded.  With 115 units used of 200 the exact
    percentage is 57.5, which [round] takes to 58; the quotient 0.575 is
    not a binary64 number, the product with 100 comes out just below
    57.5, and the program pushes 57. *)
Lemma C9_half_not_rounded :
  ram_usage_of (mk_svmem 200 85) = Some 57
  ∧ percent_rounded (mk_svmem 200 85) = 58
  ∧ ¬ (∀ mem_stats : svmem,
         0 ≤ available mem_stats ≤ total mem_stats →
         0 < total mem_stats →
         ram_usage_of mem_stats = Some (percent_rounded mem_stats)).
Proof.
  split; [vm_compute; reflexivity|]. split; [vm_compute; reflexivity|].
  intros H.
  assert (ram_usage_of (mk_svmem 200 85) = Some 58) as H'
    by (apply (H (mk_svmem 200 85)); simpl; lia).
  vm_compute in H'. discriminate H'.
Qed.

(** C10: the label of every core from 1 to 99 is five characters wide,
    and the graph [advanced_init] creates at position [i] is the one
    labelled with core [i + 1]; so, whatever the core number, a left
    graph's bar starts at column 8 and a right graph's at column 39. *)
Theorem C10_label_width (cpu_count : Z) (w : window) (i : nat)
    (g : BarGraph) :
  layout cpu_count !! i = Some g →
  Z.of_nat i + 1 ≤ 99 →
  (∃ w', advanced_init cpu_count w = Returned (layout cpu_count) w')
  ∧ g = new_graph (3 * (Z.of_nat i / 2) + 6)
                  (if Z.even (Z.of_nat i) then 1 else 32)
                  (cpu_label (Z.of_nat i + 1))
  ∧ length (cpu_label (Z.of_nat i + 1)) = 5%nat
  ∧ bar_x g = if Z.even (Z.of_nat i) then 8 else 39.
Proof.
  intros Hg Hi. split; [apply advanced_init_ok|].
  apply layout_lookup in Hg.
  assert (length (cpu_label (Z.of_nat i + 1)) = 5%nat) as Hlen
    by (apply cpu_label_length; lia).
  split; [exact Hg|]. split; [exact Hlen|].
  rewrite Hg. unfold graph_at, new_graph, len. cbn [bar_x].
  rewrite Hlen. destruct (Z.even (Z.of_nat i)); reflexivity.
Qed.

Lemma C10_label_width_witness :
  length (cpu_label 10) = 5%nat
  ∧ bar_x (new_graph 18 32 (cpu_label 10)) = 39.
Proof.
  destruct (C10_label_width 10 (Window ∅ (0, 0) ∅) 9
              (new_graph 18 32 (cpu_label 10)))
    as (_ & _ & Hl & Hb).
  - vm_compute. reflexivity.
  - lia.
  - split; [exact Hl | exact Hb].
Defined.

(** ** Further properties: construction and regions *)

Lemma init_cells_lookup pos_y pos_x label m r c :
  init_cells pos_y pos_x label m !! (r, c) =
    if decide (r = pos_y + 1 + 1
               ∧ pos_x + len label + 2 + 18 ≤ c
                 < pos_x + len label + 2 + 18 + 3)
    then lit "100" !! Z.to_nat (c - (pos_x + len label + 2 + 18))
    else if decide (r = pos_y + 1 + 1
                    ∧ pos_x + len label + 2 - 1 ≤ c
                      < pos_x + len label + 2 - 1 + 1)
    then lit "0" !! Z.to_nat (c - (pos_x + len label + 2 - 1))
    else if decide (r = pos_y + 1
                    ∧ pos_x ≤ c
                      < pos_x + len (label ++ lit " |" ++ times EMPTY 19
                                     ++ lit "|"))
    then (label ++ lit " |" ++ times EMPTY 19 ++ lit "|")
           !! Z.to_nat (c - pos_x)
    else if decide (r = pos_y
                    ∧ pos_x + len label + 1 ≤ c < pos_x + len label + 1 + 3)
    then (POINTER :: lit "0%") !! Z.to_nat (c - (pos_x + len label + 1))
    else m !! (r, c).
Proof.
  unfold init_cells, new_graph. cbn [bar_y bar_x pointer_y pointer_x].
  rewrite !put_chars_lookup. reflexivity.
Qed.

Lemma len_label_row (label : list N) :
  len (label ++ lit " |" ++ times EMPTY 19 ++ lit "|") = len label + 22.
Proof. unfold len. rewrite !length_app. simpl. lia. Qed.

(** Construction draws inside the graph's box only. *)
Lemma init_cells_outside pos_y pos_x label m k :
  ¬ box pos_y pos_x label k →
  init_cells pos_y pos_x label m !! k = m !! k.
Proof.
  destruct k as [r c]. unfold box. cbn [fst snd]. intros Hbox.
  rewrite init_cells_lookup, len_label_row.
  pose proof (len_nonneg label).
  repeat case_decide; try reflexivity; exfalso; lia.
Qed.

(** An in-range repaint touches the graph's region only. *)
Lemma painted_outside g z m k :
  0 ≤ z ≤ 100 → ¬ region g k → painted g z m !! k = m !! k.
Proof.
  destruct k as [r c]. unfold region. cbn [fst snd]. intros Hz Hk.
  apply painted_frame; [exact Hz|tauto|tauto].
Qed.

(** Inside the region the repaint does not depend on what was there. *)
Lemma painted_inside g z m m' k :
  0 ≤ z ≤ 100 → region g k → painted g z m !! k = painted g z m' !! k.
Proof.
  destruct k as [r c]. unfold region. cbn [fst snd]. intros Hz Hk.
  rewrite !painted_lookup.
  destruct (value_facts z Hz) as (_ & _ & Hbar & Hbarlen & _).
  assert (len (bar_text z (blocks_of z)) = 19)
    by (rewrite Hbar; unfold len; lia).
  change (len (times SPACE 25)) with 25.
  repeat case_decide; try reflexivity; exfalso; lia.
Qed.

(** The region of a graph lies in its box. *)
Lemma region_in_box pos_y pos_x label k :
  region (new_graph pos_y pos_x label) k → box pos_y pos_x label k.
Proof.
  destruct k as [r c]. unfold region, box, new_graph. cbn.
  pose proof (len_nonneg label). lia.
Qed.

(** The bar cells of the row [__init__] draws are empty. *)
Lemma label_row_bar (label : list N) (n i : nat) :
  (i < 19)%nat → n = (length label + 2 + i)%nat →
  (label ++ lit " |" ++ times EMPTY 19 ++ lit "|") !! n = Some EMPTY.
Proof.
  intros Hi ->. rewrite lookup_app_r by lia.
  replace (length label + 2 + i - length label)%nat with (2 + i)%nat by lia.
  change (lit " |" ++ times EMPTY 19 ++ lit "|")
    with (lit " |" ++ (replicate 19 EMPTY ++ lit "|")).
  rewrite lookup_app_r by (simpl; lia).
  rewrite lookup_app_l by (rewrite length_replicate; simpl; lia).
  apply lookup_replicate_2. simpl. lia.
Qed.

Ltac graph_fields :=
  unfold new_graph in *; cbn [bar_y bar_x pointer_y pointer_x] in *.

(** Construction leaves the graph showing 0%. *)
Lemma init_cells_shows_zero pos_y pos_x label m :
  shows_zero (new_graph pos_y pos_x label) (init_cells pos_y pos_x label m).
Proof.
  pose proof (len_nonneg label) as Hl. split.
  - apply (read_row_is _ _ _ (pointer_text 0)). intros i Hi.
    change (length (pointer_text 0)) with 3%nat in Hi.
    rewrite init_cells_lookup, len_label_row. graph_fields.
    repeat case_decide; try (exfalso; lia).
    f_equal. lia.
  - apply (read_row_is _ _ _ (bar_row 0)). intros i Hi.
    change (length (bar_row 0)) with 19%nat in Hi.
    rewrite init_cells_lookup, len_label_row. graph_fields.
    repeat case_decide; try (exfalso; lia).
    rewrite (label_row_bar label _ i) by (unfold len in *; lia).
    change (bar_row 0) with (replicate 19 EMPTY).
    symmetry. apply lookup_replicate_2. lia.
Qed.

(** X1: a graph is constructed displaying 0%: the pointer text "┌0%" is
    at the pointer anchor and the bar is empty; a first update with 0
    then only blanks the rest of the pointer row. *)
Theorem init_displays_zero (pos_y pos_x : Z) (label : list N) (w : window) :
  let g := new_graph pos_y pos_x label in
  ∃ w0 w1,
    BarGraph_init pos_y pos_x label w = Returned g w0
    ∧ shown w0 (pointer_y g) (pointer_x g) 3 = Some <$> pointer_text 0
    ∧ shown w0 (bar_y g) (bar_x g) 19 = Some <$> bar_row 0
    ∧ call g 0 w0 = Returned () w1
    ∧ ∀ r c, ¬ (r = pointer_y g ∧ pointer_x g + 3 ≤ c < pointer_x g + 25) →
             cells w1 !! (r, c) = cells w0 !! (r, c).
Proof.
  intros g. rewrite BarGraph_init_ok. do 2 eexists.
  split; [reflexivity|]. unfold shown. cbn [screen cells].
  pose proof (len_nonneg label) as Hl.
  destruct (init_cells_shows_zero pos_y pos_x label (cells w)) as [Hp Hb].
  split; [exact Hp|]. split; [exact Hb|].
  rewrite call_ok by reflexivity. split; [reflexivity|].
  cbn [cells]. change (round 0) with 0.
  intros r c Hrc. rewrite painted_lookup.
  change (blocks_of 0) with 0. change (len (bar_text 0 0)) with 19.
  change (len (pointer_text 0)) with 3.
  change (len (times SPACE 25)) with 25.
  rewrite !init_cells_lookup, len_label_row. subst g. graph_fields.
  repeat case_decide; try reflexivity; try (exfalso; lia).
  - rewrite (label_row_bar label _ (Z.to_nat (c - (pos_x + len label + 2))))
      by (unfold len in *; lia).
    change (bar_text 0 0) with (replicate 19 EMPTY).
    apply lookup_replicate_2. lia.
  - f_equal. lia.
Qed.

(** X2: the dimensions the docstring of [__init__] states.  Construction
    and any sequence of in-range updates leave every cell outside the box
    of height 3 and width 26 + len(label) untouched; the box is not wider
    or higher than needed: the label row starts in its first column, the
    scale is in its last row, and the "%" of "┌100%" is in its last
    column. *)
Theorem graph_dimensions (pos_y pos_x : Z) (label : list N) (vs : list Q)
    (w : window) :
  Forall (λ u, in_range u = true) vs →
  let g := new_graph pos_y pos_x label in
  ∃ w0 w1 w2,
    BarGraph_init pos_y pos_x label w = Returned g w0
    ∧ calls g vs w0 = Returned () w1
    ∧ call g 100 w1 = Returned () w2
    ∧ (∀ k, ¬ box pos_y pos_x label k →
            cells w1 !! k = cells w !! k ∧ cells w2 !! k = cells w !! k)
    ∧ cells w0 !! (pos_y + 1, pos_x) = (label ++ lit " |") !! 0%nat
    ∧ cells w0 !! (pos_y + 2, pos_x + len label + 22) = Some 48%N
    ∧ cells w2 !! (pos_y, pos_x + len label + 25) = Some PERCENT.
Proof.
  intros Hvs g. rewrite BarGraph_init_ok. eexists.
  set (w0 := Window _ _ _).
  pose proof (len_nonneg label) as Hl.
  destruct (calls_invariant
              (λ m, ∀ k, ¬ box pos_y pos_x label k → m !! k = cells w !! k)
              g vs w0) as (w1 & Hw1 & Hout).
  - intros z m Hz Hm k Hk. rewrite painted_outside; [apply Hm; exact Hk|exact Hz|].
    intros Hr. apply Hk. apply region_in_box. exact Hr.
  - exact Hvs.
  - intros k Hk. apply init_cells_outside. exact Hk.
  - exists w1. eexists. split; [reflexivity|]. split; [exact Hw1|].
    split; [rewrite call_ok by reflexivity; reflexivity|].
    cbn [cells]. change (round 100) with 100.
    split; [|split; [|split]].
    + intros k Hk. split; [apply Hout; exact Hk|].
      rewrite painted_outside; [apply Hout; exact Hk|lia|].
      intros Hr. apply Hk. apply region_in_box. exact Hr.
    + subst w0. cbn [cells]. rewrite init_cells_lookup, len_label_row.
      repeat case_decide; try (exfalso; lia).
      rewrite Z.sub_diag. change (Z.to_nat 0) with 0%nat.
      rewrite (app_assoc label (lit " |")).
      apply lookup_app_l. rewrite length_app. simpl. lia.
    + subst w0. cbn [cells]. rewrite init_cells_lookup.
      case_decide as H1; [|exfalso; apply H1; lia].
      replace (Z.to_nat _) with 2%nat by lia. reflexivity.
    + rewrite painted_lookup. subst g. graph_fields.
      change (blocks_of 100) with 20.
      change (len (bar_text 100 20)) with 19.
      change (len (pointer_text 100)) with 5.
      case_decide as H1; [exfalso; lia|].
      case_decide as H2; [|exfalso; apply H2; lia].
      replace (Z.to_nat _) with 4%nat by lia. reflexivity.
Qed.

Lemma graph_dimensions_witness :
  ∃ w2,
    (BarGraph_init 1 3 (lit "CPU") ≫= λ g, calls g [0; 55]%Q ;; call g 100)
      (Window ∅ (0, 0) ∅) = Returned () w2
    ∧ cells w2 !! (1, 31) = Some PERCENT
    ∧ cells w2 !! (1, 32) = None.
Proof.
  destruct (graph_dimensions 1 3 (lit "CPU") [0; 55]%Q (Window ∅ (0, 0) ∅))
    as (w0 & w1 & w2 & Hi & Hc & Hc2 & Hout & _ & _ & Hp).
  - repeat constructor.
  - exists w2. split.
    + unfold mbind, M_bind. rewrite Hi, Hc. exact Hc2.
    + split; [exact Hp|].
      rewrite (proj2 (Hout (1, 32)
                        ltac:(unfold box; change (len (lit "CPU")) with 3;
                              cbn; lia))).
      reflexivity.
Defined.

(** Two repaints of disjoint graphs commute. *)
Lemma painted_commute g1 g2 z1 z2 m :
  disjoint g1 g2 → 0 ≤ z1 ≤ 100 → 0 ≤ z2 ≤ 100 →
  painted g1 z1 (painted g2 z2 m) = painted g2 z2 (painted g1 z1 m).
Proof.
  intros Hd H1 H2. apply map_eq. intros k.
  destruct (decide (region g1 k)) as [Hk1|Hk1].
  - assert (¬ region g2 k) as Hk2 by (intros Hk2; apply (Hd k); tauto).
    rewrite (painted_outside g2 z2 _ k H2 Hk2).
    apply painted_inside; assumption.
  - rewrite (painted_outside g1 z1 _ k H1 Hk1).
    destruct (decide (region g2 k)) as [Hk2|Hk2].
    + apply painted_inside; assumption.
    + rewrite !painted_outside by assumption. reflexivity.
Qed.

(** X3: updates of two graphs with disjoint regions can be made in either
    order: the window cells and what the terminal shows are the same. *)
Theorem updates_commute (g1 g2 : BarGraph) (u v : Q) (w : window) :
  disjoint g1 g2 → in_range u = true → in_range v = true →
  ∃ w12 w21,
    (call g1 u ;; call g2 v) w = Returned () w12
    ∧ (call g2 v ;; call g1 u) w = Returned () w21
    ∧ cells w12 = cells w21
    ∧ screen w12 = screen w21.
Proof.
  intros Hd Hu Hv. unfold mbind, M_bind.
  rewrite (call_ok g1 u w Hu), (call_ok g2 v w Hv).
  rewrite (call_ok g2 v _ Hv), (call_ok g1 u _ Hu).
  do 2 eexists. split; [reflexivity|]. split; [reflexivity|].
  cbn [cells screen].
  rewrite (painted_commute g1 g2) by (try apply in_range_round; assumption).
  split; reflexivity.
Qed.

Lemma updates_commute_witness :
  ∃ w12 w21,
    (call (new_graph 1 3 (lit "CPU")) 30 ;; call (new_graph 1 34 (lit "RAM")) 70)
      (Window ∅ (0, 0) ∅) = Returned () w12
    ∧ (call (new_graph 1 34 (lit "RAM")) 70 ;; call (new_graph 1 3 (lit "CPU")) 30)
        (Window ∅ (0, 0) ∅) = Returned () w21
    ∧ cells w12 = cells w21.
Proof.
  destruct (updates_commute (new_graph 1 3 (lit "CPU"))
              (new_graph 1 34 (lit "RAM")) 30 70 (Window ∅ (0, 0) ∅))
    as (w12 & w21 & H1 & H2 & Hc & _).
  - intros [r c]. unfold region, new_graph, len. simpl. lia.
  - reflexivity.
  - reflexivity.
  - exists w12, w21. split; [exact H1|]. split; [exact H2 | exact Hc].
Defined.

(** ** Further properties: the scale of the bar *)

(** [round] is monotone. *)
Lemma round_mono (u v : Q) : (u <= v)%Q → round u ≤ round v.
Proof.
  destruct u as [n1 d1], v as [n2 d2]. unfold Qle, round. simpl. intros H.
  pose proof (Z.div_mod n1 (Zpos d1) ltac:(lia)) as E1.
  pose proof (Z.mod_pos_bound n1 (Zpos d1) ltac:(lia)) as B1.
  pose proof (Z.div_mod n2 (Zpos d2) ltac:(lia)) as E2.
  pose proof (Z.mod_pos_bound n2 (Zpos d2) ltac:(lia)) as B2.
  set (q1 := n1 / Zpos d1) in *. set (r1 := n1 mod Zpos d1) in *.
  set (q2 := n2 / Zpos d2) in *. set (r2 := n2 mod Zpos d2) in *.
  rewrite E1, E2 in H.
  assert (q1 ≤ q2) as Hq.
  { apply Z.nlt_ge. intros Hlt.
    assert (0 ≤ Zpos d1 * Zpos d2 * (q1 - q2 - 1))
      by (apply Z.mul_nonneg_nonneg; lia).
    assert (0 < (Zpos d2 - r2) * Zpos d1) by (apply Z.mul_pos_pos; lia).
    assert (0 ≤ r1 * Zpos d2) by (apply Z.mul_nonneg_nonneg; lia).
    nia. }
  assert (q1 = q2 → r1 * Zpos d2 ≤ r2 * Zpos d1) as Hr
    by (intros Heq; rewrite Heq in H; nia).
  destruct (Z.eq_dec q1 q2) as [Heq|Hne].
  - specialize (Hr Heq). rewrite <- Heq.
    destruct (Z.compare_spec (2 * r1) (Zpos d1)) as [C1|C1|C1];
      destruct (Z.compare_spec (2 * r2) (Zpos d2)) as [C2|C2|C2];
      destruct (Z.even q1); try lia; exfalso; nia.
  - destruct (2 * r1 ?= Zpos d1); destruct (2 * r2 ?= Zpos d2);
      destruct (Z.even q1); destruct (Z.even q2); lia.
Qed.

(** X4: a larger percentage never shows a shorter bar, and never puts the
    pointer further left: for in-range [u <= v] the bars shown have [a]
    and [b] filled cells with [a <= b <= 19], the other cells being
    empty. *)
Theorem bar_monotone (g : BarGraph) (u v : Q) (w : window) :
  in_range u = true → in_range v = true → (u <= v)%Q →
  ∃ wu wv (a b : nat),
    call g u w = Returned () wu
    ∧ call g v w = Returned () wv
    ∧ shown wu (bar_y g) (bar_x g) 19
      = Some <$> (replicate a FILLED ++ replicate (19 - a) EMPTY)
    ∧ shown wv (bar_y g) (bar_x g) 19
      = Some <$> (replicate b FILLED ++ replicate (19 - b) EMPTY)
    ∧ (a ≤ b ≤ 19)%nat
    ∧ blocks_of (round u) ≤ blocks_of (round v).
Proof.
  intros Hu Hv Huv.
  pose proof (in_range_round u Hu) as Hzu.
  pose proof (in_range_round v Hv) as Hzv.
  pose proof (round_mono u v Huv) as Hm.
  destruct (value_facts _ Hzu) as (Hbu & _).
  destruct (value_facts _ Hzv) as (Hbv & _).
  assert (0 ≤ blocks (round u)) by (unfold blocks; apply Z.div_pos; lia).
  assert (blocks (round u) ≤ blocks (round v))
    by (unfold blocks; apply Z.div_le_mono; lia).
  exists (window_of (call g u w)), (window_of (call g v w)).
  exists (Z.to_nat (Z.min (blocks (round u)) 19)).
  exists (Z.to_nat (Z.min (blocks (round v)) 19)).
  rewrite (call_ok g u w Hu), (call_ok g v w Hv).
  split; [reflexivity|]. split; [reflexivity|].
  unfold shown, window_of. cbn [screen].
  rewrite !painted_bar_row by assumption. unfold bar_row.
  split; [|split; [|split]].
  - do 3 f_equal. lia.
  - do 3 f_equal. lia.
  - lia.
  - rewrite Hbu, Hbv. assumption.
Qed.

Lemma bar_monotone_witness :
  ∃ wu wv (a b : nat),
    call (new_graph 1 3 (lit "CPU")) (49 # 2) (Window ∅ (0, 0) ∅)
    = Returned () wu
    ∧ call (new_graph 1 3 (lit "CPU")) (199 # 2) (Window ∅ (0, 0) ∅)
      = Returned () wv
    ∧ shown wu 2 8 19 = Some <$> (replicate a FILLED ++ replicate (19 - a) EMPTY)
    ∧ shown wv 2 8 19 = Some <$> (replicate b FILLED ++ replicate (19 - b) EMPTY)
    ∧ (a ≤ b ≤ 19)%nat.
Proof.
  destruct (bar_monotone (new_graph 1 3 (lit "CPU")) (49 # 2) (199 # 2)
              (Window ∅ (0, 0) ∅))
    as (wu & wv & a & b & H1 & H2 & H3 & H4 & H5 & _).
  - reflexivity.
  - reflexivity.
  - unfold Qle. simpl. lia.
  - exists wu, wv, a, b. repeat split; try assumption; lia.
Defined.

(** ** Further properties: several graphs on one window *)

Lemma painted_displays g z m :
  wf g → 0 ≤ z ≤ 100 → displays g z (painted g z m).
Proof.
  intros Hwf Hz. split;
    [apply painted_pointer_row | apply painted_bar_row]; assumption.
Qed.

(** What a graph displays depends on the cells of its region only. *)
Lemma displays_ext g z m m' :
  (∀ k, region g k → m' !! k = m !! k) → displays g z m → displays g z m'.
Proof.
  intros Hk [Hp Hb]. split.
  - rewrite <- Hp. apply read_row_ext. intros i Hi. apply Hk.
    left. cbn. lia.
  - rewrite <- Hb. apply read_row_ext. intros i Hi. apply Hk.
    right. cbn. lia.
Qed.

Lemma displays_painted_other g g' z z' m :
  disjoint g g' → 0 ≤ z' ≤ 100 →
  displays g z m → displays g z (painted g' z' m).
Proof.
  intros Hd Hz'. apply displays_ext. intros k Hk.
  apply painted_outside; [exact Hz'|].
  intros Hk'. apply (Hd k). tauto.
Qed.

(** [basic_update] with acceptable samples on two graphs that do not
    overlap. *)
Lemma basic_update_ok (cpu_graph ram_graph : BarGraph)
    (cpu_usage : Q) (mem_stats : svmem) (ram_usage : Z) (w : window) :
  wf cpu_graph → wf ram_graph → disjoint cpu_graph ram_graph →
  basic_samples_ok cpu_usage mem_stats ram_usage →
  ∃ w',
    basic_update cpu_graph ram_graph cpu_usage mem_stats w = Returned () w'
    ∧ screen w' = cells w'
    ∧ displays cpu_graph (round cpu_usage) (screen w')
    ∧ displays ram_graph ram_usage (screen w')
    ∧ ∀ k, ¬ region cpu_graph k → ¬ region ram_graph k →
           cells w' !! k = cells w !! k.
Proof.
  intros Hwc Hwr Hd (Hcpu & Htot & Hram & Hr).
  assert (in_range (inject_Z ram_usage) = true) as Hin
    by (apply in_range_inject; exact Hr).
  pose proof (in_range_round _ Hcpu) as Hz.
  unfold basic_update. rewrite Hram, decide_False by exact Htot.
  unfold mbind, M_bind, mret, M_ret.
  rewrite (call_ok cpu_graph cpu_usage w Hcpu), call_ok by exact Hin.
  eexists. split; [reflexivity|]. cbn [screen cells]. rewrite round_inject.
  split; [reflexivity|]. split; [|split].
  - apply displays_painted_other; [exact Hd|exact Hr|].
    apply painted_displays; assumption.
  - apply painted_displays; assumption.
  - intros k Hkc Hkr. rewrite !painted_outside by assumption. reflexivity.
Qed.

(** X5: [basic_update] with acceptable samples returns, and afterwards
    the CPU graph displays the rounded aggregate percentage and the RAM
    graph the memory percentage, both at once, provided the two graphs
    do not overlap; no cell outside the two regions changes. *)
Theorem basic_update_displays (cpu_graph ram_graph : BarGraph)
    (cpu_usage : Q) (mem_stats : svmem) (ram_usage : Z) (w : window) :
  wf cpu_graph → wf ram_graph → disjoint cpu_graph ram_graph →
  basic_samples_ok cpu_usage mem_stats ram_usage →
  ∃ w',
    basic_update cpu_graph ram_graph cpu_usage mem_stats w = Returned () w'
    ∧ screen w' = cells w'
    ∧ displays cpu_graph (round cpu_usage) (screen w')
    ∧ displays ram_graph ram_usage (screen w')
    ∧ ∀ k, ¬ region cpu_graph k → ¬ region ram_graph k →
           cells w' !! k = cells w !! k.
Proof. apply basic_update_ok. Qed.

Lemma basic_update_displays_witness :
  ∃ w',
    basic_update (new_graph 1 3 (lit "CPU")) (new_graph 1 34 (lit "RAM"))
                 (25 # 2) (mk_svmem 200 85) (Window ∅ (0, 0) ∅)
    = Returned () w'
    ∧ displays (new_graph 1 3 (lit "CPU")) 12 (screen w')
    ∧ displays (new_graph 1 34 (lit "RAM")) 57 (screen w').
Proof.
  destruct (basic_update_displays (new_graph 1 3 (lit "CPU"))
              (new_graph 1 34 (lit "RAM")) (25 # 2) (mk_svmem 200 85) 57
              (Window ∅ (0, 0) ∅))
    as (w' & Hu & _ & Hc & Hr & _).
  - apply new_graph_wf.
  - apply new_graph_wf.
  - intros [r c]. unfold region, new_graph, len. simpl. lia.
  - split; [reflexivity|]. split; [simpl; lia|].
    split; [vm_compute; reflexivity | lia].
  - exists w'. split; [exact Hu|]. split; [exact Hc | exact Hr].
Defined.

(** X6: how [basic_update] fails.  An aggregate percentage out of range
    fails the assertion with nothing drawn; with it in range, a memory
    total of zero raises [ZeroDivisionError], and a memory percentage out
    of range (more available than total, say) fails the assertion of the
    RAM graph; in both cases the CPU graph has been updated and flushed
    and the RAM graph is as it was. *)
Theorem basic_update_failures (cpu_graph ram_graph : BarGraph)
    (cpu_usage : Q) (mem_stats : svmem) (w : window) :
  (in_range cpu_usage = false →
   basic_update cpu_graph ram_graph cpu_usage mem_stats w
   = Raised (AssertionError "Given value not in range <0;100>") w)
  ∧ (in_range cpu_usage = true → total mem_stats = 0 →
     basic_update cpu_graph ram_graph cpu_usage mem_stats w
     = Raised ZeroDivisionError (window_of (call cpu_graph cpu_usage w)))
  ∧ (∀ p, in_range cpu_usage = true → total mem_stats ≠ 0 →
          ram_usage_of mem_stats = Some p → ¬ (0 ≤ p ≤ 100) →
          basic_update cpu_graph ram_graph cpu_usage mem_stats w
          = Raised (AssertionError "Given value not in range <0;100>")
                   (window_of (call cpu_graph cpu_usage w))).
Proof.
  unfold basic_update, mbind, M_bind. split; [|split].
  - intros H. rewrite (call_raises _ _ _ H). reflexivity.
  - intros H Ht. rewrite (call_ok _ _ _ H), decide_True by exact Ht.
    reflexivity.
  - intros p H Ht Hp Hr. rewrite (call_ok _ _ _ H), decide_False by exact Ht.
    unfold mret, M_ret. rewrite Hp. cbn [window_of].
    apply call_raises.
    destruct (in_range (inject_Z p)) eqn:E; [|reflexivity].
    apply in_range_inject in E. contradiction.
Qed.

Lemma basic_update_failures_witness :
  basic_update (new_graph 1 3 (lit "CPU")) (new_graph 1 34 (lit "RAM"))
               101 (mk_svmem 200 85) (Window ∅ (0, 0) ∅)
  = Raised (AssertionError "Given value not in range <0;100>")
           (Window ∅ (0, 0) ∅)
  ∧ basic_update (new_graph 1 3 (lit "CPU")) (new_graph 1 34 (lit "RAM"))
                 50 (mk_svmem 0 0) (Window ∅ (0, 0) ∅)
    = Raised ZeroDivisionError
             (window_of (call (new_graph 1 3 (lit "CPU")) 50
                              (Window ∅ (0, 0) ∅)))
  ∧ basic_update (new_graph 1 3 (lit "CPU")) (new_graph 1 34 (lit "RAM"))
                 50 (mk_svmem 100 150) (Window ∅ (0, 0) ∅)
    = Raised (AssertionError "Given value not in range <0;100>")
             (window_of (call (new_graph 1 3 (lit "CPU")) 50
                              (Window ∅ (0, 0) ∅))).
Proof.
  split; [|split].
  - apply (basic_update_failures (new_graph 1 3 (lit "CPU"))
             (new_graph 1 34 (lit "RAM")) 101 (mk_svmem 200 85)).
    reflexivity.
  - apply (basic_update_failures (new_graph 1 3 (lit "CPU"))
             (new_graph 1 34 (lit "RAM")) 50 (mk_svmem 0 0));
      reflexivity.
  - apply (proj2 (proj2 (basic_update_failures (new_graph 1 3 (lit "CPU"))
             (new_graph 1 34 (lit "RAM")) 50 (mk_svmem 100 150)
             (Window ∅ (0, 0) ∅))) (-50)).
    + reflexivity.
    + simpl. lia.
    + vm_compute. reflexivity.
    + lia.
Defined.

(** The loop of [advanced_update] over graphs that do not overlap: each
    graph ends up displaying its own sample, and nothing else changes. *)
Lemma pushes_display (gs : list BarGraph) :
  Forall wf gs → pairwise_disjoint gs →
  ∀ (us : list Q) (w : window),
    length gs = length us → Forall (λ u, in_range u = true) us →
    ∃ w',
      for_each (zip gs us) (λ '(graph, cpu_usage) _, call graph cpu_usage) () w
      = Returned () w'
      ∧ (gs ≠ [] → screen w' = cells w')
      ∧ (∀ (i : nat) g u, gs !! i = Some g → us !! i = Some u →
                          displays g (round u) (cells w'))
      ∧ (∀ k, (∀ g, g ∈ gs → ¬ region g k) → cells w' !! k = cells w !! k).
Proof.
  induction gs as [|g gs IH]; intros Hwf Hpd [|u us] w Hlen Hus;
    simpl in Hlen; try discriminate Hlen.
  - exists w. split; [reflexivity|]. split; [done|]. split; [|done].
    intros i g u Hg. rewrite lookup_nil in Hg. discriminate Hg.
  - apply Forall_cons in Hwf as [Hwg Hwf].
    apply Forall_cons in Hus as [Hu Hus].
    assert (pairwise_disjoint gs) as Hpd'.
    { intros i j gi gj Hij Hi Hj. apply (Hpd (S i) (S j)); [lia|done|done]. }
    simpl. unfold mbind, M_bind. rewrite (call_ok g u w Hu).
    set (w1 := Window _ _ _).
    destruct (IH Hwf Hpd' us w1 ltac:(lia) Hus) as (w' & Hw' & Hscr & Hdis & Hout).
    exists w'. split; [exact Hw'|].
    pose proof (in_range_round u Hu) as Hz.
    split; [|split].
    + intros _. destruct gs as [|g' gs']; [|apply Hscr; done].
      destruct us; [|discriminate Hlen].
      simpl in Hw'. injection Hw' as <-. reflexivity.
    + intros [|i] g0 u0 Hg0 Hu0.
      * simpl in Hg0, Hu0. injection Hg0 as <-. injection Hu0 as <-.
        apply (displays_ext g (round u) (cells w1)).
        -- intros k Hk. apply Hout. intros g' Hg' Hk'.
           apply list_elem_of_lookup in Hg' as [j Hj].
           apply (Hpd 0%nat (S j) g g' ltac:(lia) eq_refl Hj k). tauto.
        -- subst w1. cbn [cells]. apply painted_displays; assumption.
      * apply (Hdis i); assumption.
    + intros k Hk. rewrite Hout.
      * subst w1. cbn [cells]. apply painted_outside; [exact Hz|].
        apply Hk. left.
      * intros g' Hg'. apply Hk. right. exact Hg'.
Qed.

(** X7: [advanced_update] on graphs that do not overlap, with one in-range
    sample per graph: it returns, every graph then displays the rounded
    sample of its own position, and no cell outside the graphs' regions
    changes. *)
Theorem advanced_update_displays (gs : list BarGraph) (us : list Q)
    (w : window) :
  Forall wf gs → pairwise_disjoint gs → gs ≠ [] →
  length gs = length us → Forall (λ u, in_range u = true) us →
  ∃ w',
    advanced_update gs us w = Returned () w'
    ∧ (∀ (i : nat) g u, gs !! i = Some g → us !! i = Some u →
                        displays g (round u) (screen w'))
    ∧ (∀ k, (∀ g, g ∈ gs → ¬ region g k) → cells w' !! k = cells w !! k).
Proof.
  intros Hwf Hpd Hne Hlen Hus.
  destruct (pushes_display gs Hwf Hpd us w Hlen Hus)
    as (w' & Hw' & Hscr & Hdis & Hout).
  exists w'. unfold advanced_update, assert_.
  rewrite bool_decide_eq_true_2 by exact Hlen.
  split; [exact Hw'|]. rewrite (Hscr Hne). split; assumption.
Qed.

Lemma advanced_update_displays_witness :
  ∃ w',
    advanced_update [graph_at 0; graph_at 1] [20; 45 # 2]%Q
                    (Window ∅ (0, 0) ∅) = Returned () w'
    ∧ displays (graph_at 0) 20 (screen w')
    ∧ displays (graph_at 1) 22 (screen w').
Proof.
  destruct (advanced_update_displays [graph_at 0; graph_at 1] [20; 45 # 2]%Q
              (Window ∅ (0, 0) ∅))
    as (w' & Hu & Hd & _).
  - repeat constructor; vm_compute; split; reflexivity.
  - intros [|[|i]] [|[|j]] gi gj Hij Hi Hj; try done;
      simpl in Hi, Hj; injection Hi as <-; injection Hj as <-;
      intros [r c]; unfold region, graph_at, new_graph, len; simpl; lia.
  - discriminate.
  - reflexivity.
  - repeat constructor.
  - exists w'. split; [exact Hu|]. split.
    + apply (Hd 0%nat (graph_at 0) 20%Q); reflexivity.
    + apply (Hd 1%nat (graph_at 1) (45 # 2)%Q); reflexivity.
Defined.

(** The loop stops at the first sample out of range. *)
Lemma pushes_stop (ps1 ps2 : list (BarGraph * Q)) g u (w : window) :
  Forall (λ p, in_range p.2 = true) ps1 → in_range u = false →
  ∃ w1,
    for_each ps1 (λ '(graph, cpu_usage) _, call graph cpu_usage) () w
    = Returned () w1
    ∧ for_each (ps1 ++ (g, u) :: ps2)
               (λ '(graph, cpu_usage) _, call graph cpu_usage) () w
      = Raised (AssertionError "Given value not in range <0;100>") w1.
Proof.
  intros H1 Hu. destruct (pushes_return ps1 w H1) as [w1 Hw1].
  exists w1. split; [exact Hw1|].
  rewrite for_each_app, Hw1. simpl. unfold mbind, M_bind.
  rewrite (call_raises g u w1 Hu). reflexivity.
Qed.

(** X8: [advanced_update] is not all-or-nothing.  When the lengths match
    and the first sample out of range is at position [n], the graphs
    before position [n] have been updated, as by [advanced_update] on
    those graphs alone, when the assertion of graph [n] fails; the graphs
    from [n] on are not touched. *)
Theorem advanced_update_partial (gs : list BarGraph) (us1 us2 : list Q)
    (u : Q) (w : window) :
  length gs = length (us1 ++ u :: us2) →
  Forall (λ v, in_range v = true) us1 → in_range u = false →
  ∃ w1,
    advanced_update (take (length us1) gs) us1 w = Returned () w1
    ∧ advanced_update gs (us1 ++ u :: us2) w
      = Raised (AssertionError "Given value not in range <0;100>") w1.
Proof.
  intros Hlen H1 Hu. pose proof Hlen as Hlen0.
  rewrite length_app in Hlen. simpl in Hlen.
  unfold advanced_update, assert_.
  rewrite (bool_decide_eq_true_2 _ Hlen0).
  rewrite bool_decide_eq_true_2 by (rewrite length_take; lia).
  unfold mbind, M_bind, mret, M_ret.
  destruct (drop (length us1) gs) as [|g gs2] eqn:Hdrop.
  { apply (f_equal length) in Hdrop. rewrite length_drop in Hdrop.
    simpl in Hdrop. lia. }
  destruct (pushes_stop (zip (take (length us1) gs) us1) (zip gs2 us2) g u w)
    as (w1 & Ha & Hb); [|exact Hu|].
  { apply Forall_forall. intros [g' v] Hin. simpl.
    apply elem_of_zip_r in Hin. rewrite Forall_forall in H1. apply H1, Hin. }
  exists w1. split; [exact Ha|]. rewrite <- Hb. f_equal.
  rewrite <- (take_drop (length us1) gs) at 1. rewrite Hdrop.
  rewrite zip_with_app by (rewrite length_take; lia). reflexivity.
Qed.

Lemma advanced_update_partial_witness :
  ∃ w1,
    advanced_update [graph_at 0] [20]%Q (Window ∅ (0, 0) ∅) = Returned () w1
    ∧ advanced_update [graph_at 0; graph_at 1; graph_at 2]
                      ([20] ++ 120 :: [30])%Q (Window ∅ (0, 0) ∅)
      = Raised (AssertionError "Given value not in range <0;100>") w1.
Proof.
  apply (advanced_update_partial [graph_at 0; graph_at 1; graph_at 2]
           [20]%Q [30]%Q 120 (Window ∅ (0, 0) ∅)).
  - reflexivity.
  - repeat constructor.
  - reflexivity.
Defined.

(** ** Further properties: frames and layouts *)

Lemma put_column_lookup y x ch n m r c :
  put_column y x ch n m !! (r, c) =
    if decide (c = x ∧ y ≤ r < y + Z.of_nat n) then Some ch else m !! (r, c).
Proof.
  revert y m. induction n as [|n IH]; intros y m; simpl put_column.
  - case_decide as Hd; [lia | reflexivity].
  - rewrite IH.
    destruct (decide (c = x ∧ y + 1 ≤ r < y + 1 + Z.of_nat n)) as [H1|H1];
      destruct (decide (c = x ∧ y ≤ r < y + Z.of_nat (S n))) as [H2|H2];
      try reflexivity; try (exfalso; lia).
    + destruct H2 as [-> H2]. assert (r = y) as -> by lia.
      apply lookup_insert_eq.
    + apply lookup_insert_ne. intros [= -> ->]. apply H2. lia.
Qed.

Lemma len_times ch n : len (times ch n) = Z.max 0 n.
Proof. unfold len, times. rewrite length_replicate. lia. Qed.


(** Settles the outermost [decide] of the goal by linear arithmetic. *)
Ltac decide_lia :=
  repeat first [rewrite decide_True by lia | rewrite decide_False by lia].

Lemma rectangle_cells_lookup uly ulx lry lrx m r c :
  uly < lry → ulx < lrx →
  rectangle_cells uly ulx lry lrx m !! (r, c) =
    if decide (r = lry ∧ c = ulx) then Some ACS_LLCORNER
    else if decide (r = lry ∧ c = lrx) then Some ACS_LRCORNER
    else if decide (r = uly ∧ c = lrx) then Some ACS_URCORNER
    else if decide (r = uly ∧ c = ulx) then Some ACS_ULCORNER
    else if decide (uly < r < lry ∧ (c = ulx ∨ c = lrx)) then Some ACS_VLINE
    else if decide ((r = uly ∨ r = lry) ∧ ulx < c < lrx) then Some ACS_HLINE
    else m !! (r, c).
Proof.
  intros Hy Hx. unfold rectangle_cells.
  repeat (rewrite put_chars_lookup || rewrite put_column_lookup).
  rewrite !len_times.
  change (len [ACS_LLCORNER]) with 1. change (len [ACS_LRCORNER]) with 1.
  change (len [ACS_URCORNER]) with 1. change (len [ACS_ULCORNER]) with 1.
  unfold times.
  destruct (decide (r = lry ∧ c = ulx)) as [H1|H1].
  { decide_lia. replace (Z.to_nat _) with 0%nat by lia. reflexivity. }
  destruct (decide (r = lry ∧ c = lrx)) as [H2|H2].
  { decide_lia. replace (Z.to_nat _) with 0%nat by lia. reflexivity. }
  destruct (decide (r = uly ∧ c = lrx)) as [H3|H3].
  { decide_lia. replace (Z.to_nat _) with 0%nat by lia. reflexivity. }
  destruct (decide (r = uly ∧ c = ulx)) as [H4|H4].
  { decide_lia. replace (Z.to_nat _) with 0%nat by lia. reflexivity. }
  destruct (decide (uly < r < lry ∧ (c = ulx ∨ c = lrx))) as [H5|H5].
  { destruct H5 as [H5 [->| ->]]; decide_lia; reflexivity. }
  destruct (decide ((r = uly ∨ r = lry) ∧ ulx < c < lrx)) as [H6|H6].
  { destruct H6 as [[->| ->] H6]; decide_lia; apply lookup_replicate_2; lia. }
  decide_lia. reflexivity.
Qed.

(** [rectangle] draws the whole frame and nothing but the frame. *)
Lemma rectangle_cells_framed uly ulx lry lrx t t' m :
  uly < lry → ulx < lrx →
  framed uly ulx lry lrx t t' (rectangle_cells uly ulx lry lrx m).
Proof.
  intros Hy Hx. unfold framed.
  repeat split; intros;
    rewrite rectangle_cells_lookup by assumption;
    decide_lia; reflexivity.
Qed.

(** A frame is kept by whatever changes no cell of its border other than
    the title's. *)
Lemma framed_ext uly ulx lry lrx t t' m m' :
  (∀ r c, (r = uly ∨ r = lry ∨ c = ulx ∨ c = lrx) →
          ¬ (r = uly ∧ t ≤ c ≤ t') →
          m' !! (r, c) = m !! (r, c)) →
  ulx < t → t' < lrx → uly < lry →
  framed uly ulx lry lrx t t' m → framed uly ulx lry lrx t t' m'.
Proof.
  intros Hext Ht Ht' Hy (H1 & H2 & H3 & H4 & H5 & H6). unfold framed.
  rewrite !Hext by lia.
  split; [exact H1|]. split; [exact H2|]. split; [exact H3|].
  split; [exact H4|]. split.
  - intros r Hr. rewrite !Hext by lia. apply H5, Hr.
  - intros c Hc. rewrite Hext by lia. split; [apply H6, Hc|].
    intros Hn. rewrite Hext by lia. apply H6; assumption.
Qed.

(** The static frame and the initial display of a graph depend on the
    cells of its box only. *)
Lemma static_frame_ext pos_y pos_x label m m' :
  (∀ k, box pos_y pos_x label k → m' !! k = m !! k) →
  static_frame pos_y pos_x label m → static_frame pos_y pos_x label m'.
Proof.
  intros Hext (H1 & H2 & H3 & H4). unfold static_frame in *.
  graph_fields. pose proof (len_nonneg label) as Hl.
  assert (∀ r c, pos_y ≤ r < pos_y + 3 →
                 pos_x ≤ c < pos_x + (26 + len label) →
                 m' !! (r, c) = m !! (r, c)) as Hext'.
  { intros r c Hr Hc. apply Hext. split; assumption. }
  split; [|split; [|split]].
  - rewrite <- H1. apply read_row_ext. intros i Hi.
    rewrite length_app in Hi. simpl in Hi.
    apply Hext'; unfold len; lia.
  - rewrite <- H2. apply Hext'; lia.
  - rewrite <- H3. apply Hext'; lia.
  - rewrite <- H4. apply read_row_ext. intros i Hi. apply Hext'; lia.
Qed.

Lemma shows_zero_ext pos_y pos_x label m m' :
  (∀ k, box pos_y pos_x label k → m' !! k = m !! k) →
  shows_zero (new_graph pos_y pos_x label) m →
  shows_zero (new_graph pos_y pos_x label) m'.
Proof.
  intros Hext [H1 H2]. unfold shows_zero in *.
  graph_fields. pose proof (len_nonneg label) as Hl.
  split.
  - rewrite <- H1. apply read_row_ext. intros i Hi.
    apply Hext. split; cbn; lia.
  - rewrite <- H2. apply read_row_ext. intros i Hi.
    apply Hext. split; cbn; lia.
Qed.

Lemma basic_init_ok w :
  basic_init w =
    Returned (new_graph 1 3 (lit "CPU"), new_graph 1 34 (lit "RAM"))
      (Window
         (init_cells 1 34 (lit "RAM")
            (init_cells 1 3 (lit "CPU")
               (put_chars 0 2 (lit " Basic ")
                  (rectangle_cells 0 0 4 63 (cells w)))))
         (3, 60)
         (init_cells 1 34 (lit "RAM")
            (init_cells 1 3 (lit "CPU")
               (put_chars 0 2 (lit " Basic ")
                  (rectangle_cells 0 0 4 63 (cells w)))))).
Proof. reflexivity. Qed.

Lemma box_basic_cpu k :
  box 1 3 (lit "CPU") k ↔ (1 ≤ k.1 < 4 ∧ 3 ≤ k.2 < 32).
Proof. unfold box. change (len (lit "CPU")) with 3. lia. Qed.

Lemma box_basic_ram k :
  box 1 34 (lit "RAM") k ↔ (1 ≤ k.1 < 4 ∧ 34 ≤ k.2 < 63).
Proof. unfold box. change (len (lit "RAM")) with 3. lia. Qed.

(** X9: [basic_init] draws, inside rows 0 to 4 and columns 0 to 63 only, a
    frame whose top row carries the title " Basic ", and returns the "CPU"
    and "RAM" graphs; both are on the terminal with their static frame,
    showing 0%; their regions do not overlap and lie strictly inside the
    frame, so no update can paint over the border or the title. *)
Theorem basic_init_layout (w : window) :
  let cpu := new_graph 1 3 (lit "CPU") in
  let ram := new_graph 1 34 (lit "RAM") in
  ∃ w',
    basic_init w = Returned (cpu, ram) w'
    ∧ screen w' = cells w'
    ∧ framed 0 0 4 63 2 8 (cells w')
    ∧ read_row (cells w') 0 2 7 = Some <$> lit " Basic "
    ∧ static_frame 1 3 (lit "CPU") (cells w') ∧ shows_zero cpu (cells w')
    ∧ static_frame 1 34 (lit "RAM") (cells w') ∧ shows_zero ram (cells w')
    ∧ disjoint cpu ram
    ∧ (∀ k, region cpu k ∨ region ram k → 0 < k.1 < 4 ∧ 0 < k.2 < 63)
    ∧ (∀ k, ¬ (0 ≤ k.1 ≤ 4 ∧ 0 ≤ k.2 ≤ 63) → cells w' !! k = cells w !! k).
Proof.
  intros cpu ram. rewrite basic_init_ok. eexists.
  split; [reflexivity|]. cbn [screen cells]. split; [reflexivity|].
  set (m0 := rectangle_cells 0 0 4 63 (cells w)).
  set (m1 := put_chars 0 2 (lit " Basic ") m0).
  set (m2 := init_cells 1 3 (lit "CPU") m1).
  assert (∀ k, ¬ box 1 34 (lit "RAM") k →
               init_cells 1 34 (lit "RAM") m2 !! k = m2 !! k) as Hram
    by (intros k Hk; apply init_cells_outside; exact Hk).
  assert (∀ k, ¬ box 1 3 (lit "CPU") k → m2 !! k = m1 !! k) as Hcpu
    by (intros k Hk; apply init_cells_outside; exact Hk).
  assert (∀ k, ¬ (1 ≤ k.1 < 4 ∧ 3 ≤ k.2 < 63) →
               init_cells 1 34 (lit "RAM") m2 !! k = m1 !! k) as Hboth.
  { intros k Hk. rewrite Hram by (rewrite box_basic_ram; lia).
    apply Hcpu. rewrite box_basic_cpu. lia. }
  split; [|split; [|split; [|split; [|split; [|split; [|split; [|split]]]]]]].
  - apply (framed_ext 0 0 4 63 2 8 m0); [|lia|lia|lia|].
    + intros r c Hb Ht. rewrite Hboth by (cbn; lia).
      subst m1. rewrite put_chars_lookup. change (len (lit " Basic ")) with 7.
      case_decide; [exfalso; lia | reflexivity].
    + apply rectangle_cells_framed; lia.
  - apply (read_row_is _ _ _ (lit " Basic ")). intros i Hi. simpl in Hi.
    rewrite Hboth by (cbn; lia). subst m1. rewrite put_chars_lookup.
    change (len (lit " Basic ")) with 7.
    case_decide as Hd; [|exfalso; apply Hd; lia]. f_equal. lia.
  - apply (static_frame_ext _ _ _ m2).
    + intros k Hk. apply Hram. rewrite box_basic_cpu in Hk.
      rewrite box_basic_ram. lia.
    + apply init_static_frame.
  - apply (shows_zero_ext _ _ _ m2).
    + intros k Hk. apply Hram. rewrite box_basic_cpu in Hk.
      rewrite box_basic_ram. lia.
    + apply init_cells_shows_zero.
  - apply init_static_frame.
  - apply init_cells_shows_zero.
  - intros [r c]. unfold region, cpu, ram, new_graph, len. simpl. lia.
  - intros [r c]. unfold region, cpu, ram, new_graph, len. simpl. lia.
  - intros k Hk. rewrite Hboth by lia. subst m1.
    destruct k as [r c]. cbn in Hk. rewrite put_chars_lookup.
    change (len (lit " Basic ")) with 7.
    case_decide; [exfalso; lia|].
    subst m0. rewrite rectangle_cells_lookup by lia.
    decide_lia. reflexivity.
Qed.

(** The region of the graph at position [i] of the advanced layout. *)
Lemma graph_at_region (i : Z) k :
  0 ≤ i ≤ 98 → region (graph_at i) k →
  (k.1 = 3 * (i / 2) + 6 ∨ k.1 = 3 * (i / 2) + 7)
  ∧ (7 + 31 * (i mod 2) ≤ k.2 ≤ 31 + 31 * (i mod 2)).
Proof.
  intros Hi. destruct k as [r c]. unfold region, graph_at, new_graph.
  cbn [fst snd pointer_y pointer_x bar_y bar_x].
  assert (len (cpu_label (i + 1)) = 5) as ->
    by (unfold len; rewrite cpu_label_length by lia; reflexivity).
  rewrite (Zmod_even i). destruct (Z.even i); lia.
Qed.

Lemma graph_at_disjoint (i j : Z) :
  0 ≤ i ≤ 98 → 0 ≤ j ≤ 98 → i ≠ j → disjoint (graph_at i) (graph_at j).
Proof.
  intros Hi Hj Hij k [Hki Hkj].
  apply graph_at_region in Hki; [|exact Hi].
  apply graph_at_region in Hkj; [|exact Hj].
  pose proof (Z.div_mod i 2 ltac:(lia)).
  pose proof (Z.div_mod j 2 ltac:(lia)).
  pose proof (Z.mod_pos_bound i 2 ltac:(lia)).
  pose proof (Z.mod_pos_bound j 2 ltac:(lia)).
  lia.
Qed.

(** X10: the graphs [advanced_init] creates (up to 99 cores) do not
    overlap one another nor the "CPU" and "RAM" graphs of the basic
    layout, and their regions lie strictly inside the frame of the
    advanced layout: below its title row, above its bottom row, between
    its side columns. *)
Theorem advanced_layout_geometry (cpu_count : Z) (i j : nat)
    (gi gj : BarGraph) :
  layout cpu_count !! i = Some gi → layout cpu_count !! j = Some gj →
  i ≠ j → Z.of_nat i + 1 ≤ 99 → Z.of_nat j + 1 ≤ 99 →
  disjoint gi gj
  ∧ disjoint gi (new_graph 1 3 (lit "CPU"))
  ∧ disjoint gi (new_graph 1 34 (lit "RAM"))
  ∧ ∀ k, region gi k →
         5 < k.1 < 6 + 3 * rows_of cpu_count ∧ 0 < k.2 < 63.
Proof.
  intros Hgi Hgj Hij Hi Hj.
  pose proof (lookup_lt_Some _ _ _ Hgi) as Hlt.
  rewrite layout_length in Hlt.
  apply layout_lookup in Hgi. apply layout_lookup in Hgj. subst gi gj.
  pose proof (Z.div_mod (Z.of_nat i) 2 ltac:(lia)).
  pose proof (Z.mod_pos_bound (Z.of_nat i) 2 ltac:(lia)).
  split; [apply graph_at_disjoint; lia|].
  split; [|split].
  - intros k [Hk Hc]. apply graph_at_region in Hk; [|lia].
    destruct k as [r c]. unfold region, new_graph, len in Hc. simpl in Hc.
    cbn [fst snd] in Hk. lia.
  - intros k [Hk Hc]. apply graph_at_region in Hk; [|lia].
    destruct k as [r c]. unfold region, new_graph, len in Hc. simpl in Hc.
    cbn [fst snd] in Hk. lia.
  - intros k Hk. apply graph_at_region in Hk; [|lia]. lia.
Qed.

Lemma advanced_layout_geometry_witness :
  disjoint (graph_at 2) (graph_at 3)
  ∧ disjoint (graph_at 2) (new_graph 1 3 (lit "CPU")).
Proof.
  destruct (advanced_layout_geometry 8 2 3 (graph_at 2) (graph_at 3))
    as (H1 & H2 & _).
  - vm_compute. reflexivity.
  - vm_compute. reflexivity.
  - lia.
  - lia.
  - lia.
  - split; [exact H1 | exact H2].
Defined.











(** ** Further properties: the polling loop *)

(** A loop whose body returns and keeps [P] on every element returns and
    keeps [P]. *)
Lemma for_each_invariant {A} (Q : A → Prop) (P : window → Prop)
    (body : A → () → M ()) (xs : list A) (w : window) :
  (∀ x w, Q x → P w → ∃ w', body x () w = Returned () w' ∧ P w') →
  Forall Q xs → P w →
  ∃ w', for_each xs body () w = Returned () w' ∧ P w'.
Proof.
  intros Hbody Hxs. revert w. induction Hxs as [|x xs Hx _ IH]; intros w HP.
  - exists w. split; [reflexivity | exact HP].
  - destruct (Hbody x w Hx HP) as (w1 & Hw1 & HP1).
    destruct (IH w1 HP1) as (w' & Hw' & HP').
    exists w'. split; [|exact HP'].
    simpl. unfold mbind, M_bind. rewrite Hw1. exact Hw'.
Qed.

Lemma for_each_snoc {A} (body : A → () → M ()) (xs : list A) (x : A) w :
  for_each (xs ++ [x]) body () w =
    match for_each xs body () w with
    | Returned _ w' => body x () w'
    | Raised e w' => Raised e w'
    end.
Proof.
  rewrite for_each_app. destruct (for_each xs body () w) as [[] w'|];
    [|reflexivity].
  simpl. unfold mbind, M_bind. destruct (body x () w') as [[] w''|];
    reflexivity.
Qed.

Lemma basic_graphs_disjoint :
  disjoint (new_graph 1 3 (lit "CPU")) (new_graph 1 34 (lit "RAM")).
Proof. intros [r c]. unfold region, new_graph, len. simpl. lia. Qed.

(** X12: [main] in basic mode.  Whatever the core count, with acceptable
    samples in every iteration the loop never raises, and after each
    iteration the terminal shows the window, the "CPU" and "RAM" graphs
    display the samples of that iteration, and every cell outside their
    two regions is as [basic_init] left it. *)
Theorem main_basic_mode (cpu_count : Z) (ticks : list tick) (t : tick)
    (ram_usage : Z) (w : window) :
  Forall (λ t, ∃ p, basic_tick_ok t p) ticks →
  basic_tick_ok t ram_usage →
  let cpu := new_graph 1 3 (lit "CPU") in
  let ram := new_graph 1 34 (lit "RAM") in
  ∃ w0 w',
    basic_init w = Returned (cpu, ram) w0
    ∧ main false cpu_count (ticks ++ [t]) w = Returned () w'
    ∧ screen w' = cells w'
    ∧ displays cpu (round (cpu_percent t)) (screen w')
    ∧ displays ram ram_usage (screen w')
    ∧ ∀ k, ¬ region cpu k → ¬ region ram k → cells w' !! k = cells w0 !! k.
Proof.
  intros Hticks Ht cpu ram. unfold main, mbind at 1, M_bind at 1.
  rewrite basic_init_ok. eexists. set (w0 := Window _ _ _).
  set (body := λ (t : tick) (_ : ()),
         basic_update (new_graph 1 3 (lit "CPU")) (new_graph 1 34 (lit "RAM"))
                      (cpu_percent t) (virtual_memory t)).
  set (P := λ w1 : window,
         ∀ k, ¬ region cpu k → ¬ region ram k → cells w1 !! k = cells w0 !! k).
  destruct (for_each_invariant (λ t, ∃ p, basic_tick_ok t p) P body ticks w0)
    as (w1 & Hw1 & HP1).
  - intros x wx [p Hp] HP.
    destruct (basic_update_ok cpu ram (cpu_percent x) (virtual_memory x) p wx
                (new_graph_wf _ _ _) (new_graph_wf _ _ _)
                basic_graphs_disjoint Hp) as (w' & Hw' & _ & _ & _ & Hout).
    exists w'. split; [exact Hw'|]. intros k Hc Hr.
    rewrite Hout by assumption. apply HP; assumption.
  - exact Hticks.
  - intros k _ _. reflexivity.
  - destruct (basic_update_ok cpu ram (cpu_percent t) (virtual_memory t)
                ram_usage w1 (new_graph_wf _ _ _) (new_graph_wf _ _ _)
                basic_graphs_disjoint Ht)
      as (w' & Hw' & Hscr & Hdc & Hdr & Hout).
    exists w'. split; [reflexivity|].
    split; [rewrite for_each_snoc; fold body; rewrite Hw1; exact Hw'|].
    split; [exact Hscr|]. split; [exact Hdc|]. split; [exact Hdr|].
    intros k Hc Hr. rewrite Hout by assumption. apply HP1; assumption.
Qed.

Lemma main_basic_mode_witness :
  ∃ w',
    main false 4 ([mk_tick 100 (mk_svmem 200 0) []]
                  ++ [mk_tick (25 # 2) (mk_svmem 200 85) []])
         (Window ∅ (0, 0) ∅) = Returned () w'
    ∧ displays (new_graph 1 3 (lit "CPU")) 12 (screen w')
    ∧ displays (new_graph 1 34 (lit "RAM")) 57 (screen w').
Proof.
  destruct (main_basic_mode 4 [mk_tick 100 (mk_svmem 200 0) []]
              (mk_tick (25 # 2) (mk_svmem 200 85) []) 57 (Window ∅ (0, 0) ∅))
    as (w0 & w' & _ & Hm & _ & Hc & Hr & _).
  - repeat constructor. exists 100.
    split; [reflexivity|]. split; [simpl; lia|].
    split; [vm_compute; reflexivity | lia].
  - split; [reflexivity|]. split; [simpl; lia|].
    split; [vm_compute; reflexivity | lia].
  - exists w'. split; [exact Hm|]. split; [exact Hc | exact Hr].
Defined.

(** The graphs of the advanced layout, for up to 99 cores: laid out as
    construction does, apart from one another and from the two graphs of
    the basic layout. *)
Lemma layout_facts (cpu_count : Z) :
  0 ≤ cpu_count ≤ 99 →
  length (layout cpu_count) = (2 * Z.to_nat (cpu_count / 2))%nat
  ∧ Forall wf (layout cpu_count)
  ∧ pairwise_disjoint (layout cpu_count)
  ∧ ∀ g, g ∈ layout cpu_count →
         disjoint (new_graph 1 3 (lit "CPU")) g
         ∧ disjoint (new_graph 1 34 (lit "RAM")) g.
Proof.
  intros Hc. destruct (layout_bounded cpu_count Hc) as [Hrows _].
  assert (length (layout cpu_count) = (2 * Z.to_nat (cpu_count / 2))%nat)
    as Hlen by (rewrite layout_length, Hrows; reflexivity).
  pose proof (Z.mul_div_le cpu_count 2 ltac:(lia)) as Hle.
  assert (0 ≤ cpu_count / 2) by (apply Z.div_pos; lia).
  assert (∀ (i : nat) g, layout cpu_count !! i = Some g →
                         g = graph_at (Z.of_nat i) ∧ 0 ≤ Z.of_nat i ≤ 98)
    as Hat.
  { intros i g Hg. pose proof (lookup_lt_Some _ _ _ Hg) as Hlt.
    split; [apply (layout_lookup cpu_count), Hg | lia]. }
  split; [exact Hlen|]. split; [|split].
  - apply Forall_forall. intros g Hg.
    apply list_elem_of_lookup in Hg as [i Hi].
    destruct (Hat i g Hi) as [-> _]. apply new_graph_wf.
  - intros i j gi gj Hij Hi Hj.
    destruct (Hat i gi Hi) as [-> ?]. destruct (Hat j gj Hj) as [-> ?].
    apply graph_at_disjoint; lia.
  - intros g Hg. apply list_elem_of_lookup in Hg as [i Hi].
    destruct (Hat i g Hi) as [-> Hb].
    assert (0 ≤ Z.of_nat i / 2) by (apply Z.div_pos; lia).
    split; intros [r c] [Hk1 Hk2];
      apply graph_at_region in Hk2; try exact Hb;
      unfold region, new_graph, len in Hk1; simpl in Hk1;
      cbn [fst snd] in Hk2; lia.
Qed.

(** One iteration of the loop of [main] in advanced mode. *)
Lemma advanced_iteration_ok (gs : list BarGraph) (t : tick) (p : Z)
    (w : window) :
  Forall wf gs → pairwise_disjoint gs →
  (∀ g, g ∈ gs → disjoint (new_graph 1 3 (lit "CPU")) g
                 ∧ disjoint (new_graph 1 34 (lit "RAM")) g) →
  tick_ok (length gs) t p →
  let cpu := new_graph 1 3 (lit "CPU") in
  let ram := new_graph 1 34 (lit "RAM") in
  ∃ w',
    (basic_update cpu ram (cpu_percent t) (virtual_memory t) ;;
     advanced_update gs (cpu_percent_percpu t)) w = Returned () w'
    ∧ screen w' = cells w'
    ∧ displays cpu (round (cpu_percent t)) (cells w')
    ∧ displays ram p (cells w')
    ∧ (∀ (i : nat) g u, gs !! i = Some g →
                        cpu_percent_percpu t !! i = Some u →
                        displays g (round u) (cells w'))
    ∧ (∀ k, ¬ region cpu k → ¬ region ram k →
            (∀ g, g ∈ gs → ¬ region g k) → cells w' !! k = cells w !! k).
Proof.
  intros Hwf Hpd Hbasic (Hb & Hlen & Hus) cpu ram.
  destruct (basic_update_ok cpu ram (cpu_percent t) (virtual_memory t) p w
              (new_graph_wf _ _ _) (new_graph_wf _ _ _)
              basic_graphs_disjoint Hb)
    as (w1 & Hw1 & Hscr1 & Hdc & Hdr & Hout1).
  destruct (pushes_display gs Hwf Hpd (cpu_percent_percpu t) w1
              (eq_sym Hlen) Hus) as (w' & Hw' & Hscr & Hdis & Hout).
  exists w'. unfold mbind, M_bind. rewrite Hw1.
  unfold advanced_update, assert_.
  rewrite bool_decide_eq_true_2 by (symmetry; exact Hlen).
  unfold mbind, M_bind, mret, M_ret.
  split; [exact Hw'|].
  assert (∀ g0 z, (∀ g, g ∈ gs → disjoint g0 g) →
                  displays g0 z (cells w1) → displays g0 z (cells w'))
    as Hkeep.
  { intros g0 z Hd. apply displays_ext. intros k Hk. apply Hout.
    intros g Hg Hk'. apply (Hd g Hg k). tauto. }
  split; [|split; [|split; [|split]]].
  - destruct gs as [|g0 gs0]; [|apply Hscr; done].
    destruct (cpu_percent_percpu t); [|discriminate Hlen].
    simpl in Hw'. injection Hw' as <-. exact Hscr1.
  - apply Hkeep; [intros g Hg; apply (Hbasic g Hg)|].
    rewrite <- Hscr1. exact Hdc.
  - apply Hkeep; [intros g Hg; apply (Hbasic g Hg)|].
    rewrite <- Hscr1. exact Hdr.
  - exact Hdis.
  - intros k Hc Hr Hg. rewrite Hout by exact Hg. apply Hout1; assumption.
Qed.

Lemma main_advanced_start (cpu_count : Z) (ticks : list tick) (w : window) :
  ∃ w0,
    (basic_init ≫= λ _, advanced_init cpu_count) w
    = Returned (layout cpu_count) w0
    ∧ main true cpu_count ticks w
      = for_each ticks
          (λ t _, basic_update (new_graph 1 3 (lit "CPU"))
                               (new_graph 1 34 (lit "RAM"))
                               (cpu_percent t) (virtual_memory t) ;;
                  advanced_update (layout cpu_count) (cpu_percent_percpu t))
          () w0.
Proof.
  pose proof (basic_init_ok w) as Hb. set (wb := Window _ _ _) in Hb.
  destruct (advanced_init_ok cpu_count wb) as [w0 Hw0].
  exists w0. split.
  - unfold mbind, M_bind. rewrite Hb. exact Hw0.
  - unfold main. unfold mbind at 1. unfold M_bind at 1. rewrite Hb.
    unfold mbind at 1. unfold M_bind at 1. rewrite Hw0. reflexivity.
Qed.

(** X13: [main] in advanced mode on an even number of cores (up to 99).
    With acceptable samples in every iteration, one per-core sample per
    core, the loop never raises; after each iteration the terminal shows
    the window, the "CPU" and "RAM" graphs display the aggregate samples
    of that iteration, the graph of each core displays that core's
    sample, and every cell outside the graphs' regions is as
    initialization left it. *)
Theorem main_advanced_mode (cpu_count : Z) (ticks : list tick) (t : tick)
    (ram_usage : Z) (w : window) :
  0 ≤ cpu_count ≤ 99 → Z.even cpu_count = true →
  Forall (λ t, ∃ p, tick_ok (Z.to_nat cpu_count) t p) ticks →
  tick_ok (Z.to_nat cpu_count) t ram_usage →
  let cpu := new_graph 1 3 (lit "CPU") in
  let ram := new_graph 1 34 (lit "RAM") in
  ∃ w0 w',
    (basic_init ≫= λ _, advanced_init cpu_count) w
    = Returned (layout cpu_count) w0
    ∧ length (layout cpu_count) = Z.to_nat cpu_count
    ∧ main true cpu_count (ticks ++ [t]) w = Returned () w'
    ∧ screen w' = cells w'
    ∧ displays cpu (round (cpu_percent t)) (screen w')
    ∧ displays ram ram_usage (screen w')
    ∧ (∀ (i : nat) g u, layout cpu_count !! i = Some g →
                        cpu_percent_percpu t !! i = Some u →
                        displays g (round u) (screen w'))
    ∧ (∀ k, ¬ region cpu k → ¬ region ram k →
            (∀ g, g ∈ layout cpu_count → ¬ region g k) →
            cells w' !! k = cells w0 !! k).
Proof.
  intros Hc He Hticks Ht cpu ram.
  destruct (layout_facts cpu_count Hc) as (Hlen & Hwf & Hpd & Hbasic).
  assert (length (layout cpu_count) = Z.to_nat cpu_count) as Hlen'.
  { destruct (Zeven_ex cpu_count) as [k Hk]; [apply Zeven_bool_iff, He|].
    assert (cpu_count / 2 = k)
      by (symmetry; apply Z.div_unique with 0; lia).
    lia. }
  rewrite <- Hlen' in Hticks, Ht.
  destruct (main_advanced_start cpu_count (ticks ++ [t]) w) as (w0 & Hw0 & Hm).
  exists w0. rewrite Hm. clear Hm.
  set (body := λ (t : tick) (_ : ()), _ ;; _).
  set (P := λ w1 : window,
         ∀ k, ¬ region cpu k → ¬ region ram k →
              (∀ g, g ∈ layout cpu_count → ¬ region g k) →
              cells w1 !! k = cells w0 !! k).
  destruct (for_each_invariant
              (λ t, ∃ p, tick_ok (length (layout cpu_count)) t p) P body
              ticks w0) as (w1 & Hw1 & HP1).
  - intros x wx [p Hp] HP.
    destruct (advanced_iteration_ok (layout cpu_count) x p wx Hwf Hpd Hbasic Hp)
      as (w' & Hw' & _ & _ & _ & _ & Hout).
    exists w'. split; [exact Hw'|]. intros k H1 H2 H3.
    rewrite Hout by assumption. apply HP; assumption.
  - exact Hticks.
  - intros k _ _ _. reflexivity.
  - destruct (advanced_iteration_ok (layout cpu_count) t ram_usage w1
                Hwf Hpd Hbasic Ht)
      as (w' & Hw' & Hscr & Hdc & Hdr & Hdg & Hout).
    exists w'. split; [exact Hw0|]. split; [exact Hlen'|].
    split; [rewrite for_each_snoc, Hw1; exact Hw'|].
    rewrite Hscr. split; [reflexivity|].
    split; [exact Hdc|]. split; [exact Hdr|]. split; [exact Hdg|].
    intros k H1 H2 H3. rewrite Hout by assumption. apply HP1; assumption.
Qed.

Lemma main_advanced_mode_witness :
  ∃ w',
    main true 2 ([] ++ [mk_tick (25 # 2) (mk_svmem 200 85) [30; 99 # 2]%Q])
         (Window ∅ (0, 0) ∅) = Returned () w'
    ∧ displays (new_graph 1 34 (lit "RAM")) 57 (screen w')
    ∧ displays (graph_at 1) 50 (screen w').
Proof.
  destruct (main_advanced_mode 2 []
              (mk_tick (25 # 2) (mk_svmem 200 85) [30; 99 # 2]%Q) 57
              (Window ∅ (0, 0) ∅))
    as (w0 & w' & _ & _ & Hm & _ & _ & Hr & Hg & _).
  - lia.
  - reflexivity.
  - constructor.
  - split; [|split; [reflexivity | repeat constructor]].
    split; [reflexivity|]. split; [simpl; lia|].
    split; [vm_compute; reflexivity | lia].
  - exists w'. split; [exact Hm|]. split; [exact Hr|].
    apply (Hg 1%nat (graph_at 1) (99 # 2)%Q); vm_compute; reflexivity.
Defined.

(** X14: [main] in advanced mode on an odd number of cores (up to 99)
    does not survive its first iteration: after the basic and advanced
    layouts are drawn and the "CPU" and "RAM" graphs updated, the
    per-core samples, one per core, are one more than the graphs and
    [advanced_update] fails its assertion; no per-core graph is ever
    updated. *)
Theorem main_advanced_odd (cpu_count : Z) (t : tick) (ticks : list tick)
    (ram_usage : Z) (w : window) :
  0 ≤ cpu_count ≤ 99 → Z.odd cpu_count = true →
  basic_tick_ok t ram_usage →
  length (cpu_percent_percpu t) = Z.to_nat cpu_count →
  ∃ w0 w1,
    (basic_init ≫= λ _, advanced_init cpu_count) w
    = Returned (layout cpu_count) w0
    ∧ length (layout cpu_count) = Z.to_nat (cpu_count - 1)
    ∧ basic_update (new_graph 1 3 (lit "CPU")) (new_graph 1 34 (lit "RAM"))
                   (cpu_percent t) (virtual_memory t) w0 = Returned () w1
    ∧ main true cpu_count (t :: ticks) w
      = Raised (AssertionError
                  "Quantity of graphs do not match quantity of CPUs") w1.
Proof.
  intros Hc Ho Hb Hlen.
  destruct (layout_facts cpu_count Hc) as (Hl & _).
  destruct (Zodd_ex cpu_count) as [k Hk]; [apply Zodd_bool_iff, Ho|].
  assert (length (layout cpu_count) = Z.to_nat (cpu_count - 1)) as Hl'.
  { assert (cpu_count / 2 = k)
      by (symmetry; apply Z.div_unique with 1; lia).
    lia. }
  destruct (main_advanced_start cpu_count (t :: ticks) w) as (w0 & Hw0 & Hm).
  destruct (basic_update_ok (new_graph 1 3 (lit "CPU"))
              (new_graph 1 34 (lit "RAM")) (cpu_percent t) (virtual_memory t)
              ram_usage w0 (new_graph_wf _ _ _) (new_graph_wf _ _ _)
              basic_graphs_disjoint Hb) as (w1 & Hw1 & _).
  exists w0, w1. split; [exact Hw0|]. split; [exact Hl'|].
  split; [exact Hw1|]. rewrite Hm. simpl for_each.
  unfold mbind, M_bind. rewrite Hw1.
  unfold advanced_update, assert_.
  rewrite bool_decide_eq_false_2 by lia. reflexivity.
Qed.

Lemma main_advanced_odd_witness :
  ∃ w1,
    main true 3 [mk_tick (25 # 2) (mk_svmem 200 85) [30; 40; 50]%Q]
         (Window ∅ (0, 0) ∅)
    = Raised (AssertionError
                "Quantity of graphs do not match quantity of CPUs") w1.
Proof.
  destruct (main_advanced_odd 3
              (mk_tick (25 # 2) (mk_svmem 200 85) [30; 40; 50]%Q) [] 57
              (Window ∅ (0, 0) ∅))
    as (w0 & w1 & _ & _ & _ & Hm).
  - lia.
  - reflexivity.
  - split; [reflexivity|]. split; [simpl; lia|].
    split; [vm_compute; reflexivity | lia].
  - reflexivity.
  - exists w1. exact Hm.
Defined.

(** ** Further properties: pointer, cursor and wide labels *)

Lemma painted_bar_cell g z m (i : nat) :
  0 ≤ z ≤ 100 → (i < 19)%nat →
  painted g z m !! (bar_y g, bar_x g + Z.of_nat i) = bar_row z !! i.
Proof.
  intros Hz Hi. destruct (value_facts z Hz) as (_ & _ & Hbar & Hbarlen & _).
  rewrite painted_lookup, Hbar. unfold len.
  case_decide as Hd; [|exfalso; apply Hd; lia]. f_equal. lia.
Qed.

(** X15: the pointer marks the fill level.  After an in-range update with
    [b] blocks, the pointer glyph stands in column [bar_x + b - 1]: above
    the last filled cell of the bar when [1 <= b <= 19], in which case
    the next cell, if any, is empty; above the column of the opening
    bracket when [b = 0]; above that of the closing bracket when
    [b = 20], which happens exactly at 100. *)
Theorem pointer_marks_fill_level (g : BarGraph) (v : Q) (w : window) :
  wf g → in_range v = true →
  let b := round v / 5 in
  ∃ w',
    call g v w = Returned () w'
    ∧ 0 ≤ b ≤ 20 ∧ (b = 20 ↔ round v = 100)
    ∧ screen w' !! (pointer_y g, bar_x g + b - 1) = Some POINTER
    ∧ (1 ≤ b ≤ 19 → screen w' !! (bar_y g, bar_x g + b - 1) = Some FILLED)
    ∧ (b < 19 → screen w' !! (bar_y g, bar_x g + b) = Some EMPTY).
Proof.
  intros Hwf Hv b. pose proof (in_range_round v Hv) as Hz.
  assert (0 ≤ b ≤ 20 ∧ (b = 20 ↔ round v = 100)) as [Hb H100].
  { subst b. pose proof (Z.div_mod (round v) 5 ltac:(lia)).
    pose proof (Z.mod_pos_bound (round v) 5 ltac:(lia)). lia. }
  eexists. split; [rewrite call_ok by exact Hv; reflexivity|].
  cbn [screen]. split; [exact Hb|]. split; [exact H100|].
  split; [|split].
  - pose proof (painted_pointer_glyph g (round v) (cells w) Hwf Hz) as Hg.
    destruct Hwf as [_ Hx]. unfold blocks in Hg. fold b in Hg.
    replace (bar_x g + b - 1) with (pointer_x g + b) by lia. exact Hg.
  - intros Hb1.
    replace (bar_x g + b - 1) with (bar_x g + Z.of_nat (Z.to_nat (b - 1)))
      by lia.
    rewrite painted_bar_cell by (try exact Hz; lia).
    unfold bar_row, blocks. fold b.
    rewrite lookup_app_l by (rewrite length_replicate; lia).
    apply lookup_replicate_2. lia.
  - intros Hb1.
    replace (bar_x g + b) with (bar_x g + Z.of_nat (Z.to_nat b)) by lia.
    rewrite painted_bar_cell by (try exact Hz; lia).
    unfold bar_row, blocks. fold b.
    rewrite lookup_app_r by (rewrite length_replicate; lia).
    apply lookup_replicate_2. rewrite length_replicate. lia.
Qed.

Lemma pointer_marks_fill_level_witness :
  ∃ w',
    call (new_graph 1 3 (lit "CPU")) (101 # 2) (Window ∅ (0, 0) ∅)
    = Returned () w'
    ∧ screen w' !! (1, 17) = Some POINTER
    ∧ screen w' !! (2, 17) = Some FILLED
    ∧ screen w' !! (2, 18) = Some EMPTY.
Proof.
  destruct (pointer_marks_fill_level (new_graph 1 3 (lit "CPU")) (101 # 2)
              (Window ∅ (0, 0) ∅))
    as (w' & Hc & _ & _ & Hp & Hf & He).
  - apply new_graph_wf.
  - reflexivity.
  - exists w'. split; [exact Hc|]. split; [exact Hp|].
    split; [apply Hf | apply He]; vm_compute; split; discriminate.
Defined.

(** X16: after every in-range update the cursor is left just after the 19
    cells of the bar, on the closing bracket of the graph updated, at 100
    as at any other value. *)
Theorem cursor_after_update (g : BarGraph) (v : Q) (w : window) :
  in_range v = true →
  ∃ w', call g v w = Returned () w'
    ∧ cursor w' = (bar_y g, bar_x g + 19).
Proof.
  intros Hv. pose proof (in_range_round v Hv) as Hz.
  destruct (value_facts _ Hz) as (_ & _ & Hbar & Hbarlen & _).
  eexists. split; [rewrite call_ok by exact Hv; reflexivity|].
  cbn [cursor]. rewrite Hbar. unfold len. rewrite Hbarlen. reflexivity.
Qed.

Lemma cursor_after_update_witness :
  ∃ w', call (new_graph 1 3 (lit "CPU")) 100 (Window ∅ (0, 0) ∅)
        = Returned () w'
    ∧ cursor w' = (2, 27).
Proof.
  destruct (cursor_after_update (new_graph 1 3 (lit "CPU")) 100
              (Window ∅ (0, 0) ∅)) as (w' & Hc & Hcur).
  - reflexivity.
  - exists w'. split; [exact Hc | exact Hcur].
Defined.

Lemma wide_label_length cpu_id :
  100 ≤ cpu_id ≤ 999 → length (cpu_label cpu_id) = 6%nat.
Proof.
  intros H. assert (wide_label_ok cpu_id = true) as Hc.
  { apply (upto_check wide_label_ok 1000); [vm_compute; reflexivity | lia]. }
  apply bool_decide_eq_true in Hc. destruct Hc; [lia | done].
Qed.

(** X17: core numbers of three digits make the label six characters
    wide, and the graph one column wider than the layout allows.  Every
    in-range update of a right-hand graph with such a label paints
    column 63 of its pointer row, the column of the frame's right border:
    with "%" at 100 and with a blank otherwise. *)
Theorem wide_label_overwrites_border (cpu_id pos_y : Z) (v : Q) (w : window) :
  100 ≤ cpu_id ≤ 999 → in_range v = true →
  let g := new_graph pos_y 32 (cpu_label cpu_id) in
  ∃ w',
    call g v w = Returned () w'
    ∧ length (cpu_label cpu_id) = 6%nat
    ∧ cells w' !! (pos_y, 63)
      = Some (if decide (round v = 100) then PERCENT else SPACE).
Proof.
  intros Hid Hv g. pose proof (in_range_round v Hv) as Hz.
  pose proof (wide_label_length cpu_id Hid) as Hlen.
  destruct (value_facts _ Hz) as (Hbl & Hplen & _).
  eexists. split; [rewrite call_ok by exact Hv; reflexivity|].
  split; [exact Hlen|]. cbn [cells].
  rewrite painted_lookup, Hbl. subst g. graph_fields.
  assert (len (cpu_label cpu_id) = 6) as -> by (unfold len; lia).
  change (len (times SPACE 25)) with 25.
  assert (0 ≤ blocks (round v) ≤ 20) as Hb.
  { unfold blocks. pose proof (Z.div_mod (round v) 5 ltac:(lia)).
    pose proof (Z.mod_pos_bound (round v) 5 ltac:(lia)). lia. }
  rewrite decide_False by lia.
  destruct (decide (round v = 100)) as [E|E].
  - rewrite E. change (blocks 100) with 20.
    change (len (pointer_text 100)) with 5.
    rewrite decide_True by lia. reflexivity.
  - assert (blocks (round v) ≤ 19) as Hb'.
    { unfold blocks. pose proof (Z.div_mod (round v) 5 ltac:(lia)).
      pose proof (Z.mod_pos_bound (round v) 5 ltac:(lia)). lia. }
    assert (len (pointer_text (round v)) ≤ 4) as Hl4.
    { assert (short_pointer_ok (round v) = true) as Hc.
      { apply (upto_check short_pointer_ok 101);
          [vm_compute; reflexivity | lia]. }
      apply bool_decide_eq_true in Hc. destruct Hc; [contradiction | done]. }
    rewrite decide_False by lia. rewrite decide_True by lia.
    unfold times. apply lookup_replicate_2. lia.
Qed.

Lemma wide_label_overwrites_border_witness :
  ∃ w',
    call (new_graph 153 32 (cpu_label 100)) 40 (Window ∅ (0, 0) ∅)
    = Returned () w'
    ∧ cells w' !! (153, 63) = Some SPACE.
Proof.
  destruct (wide_label_overwrites_border 100 153 40 (Window ∅ (0, 0) ∅))
    as (w' & Hc & _ & Hb).
  - lia.
  - reflexivity.
  - exists w'. split; [exact Hc | exact Hb].
Defined.
